(** * Terminal session orchestration of claude-code-canvas

    A shallow embedding of [canvas/src/terminal.ts] (environment detection,
    command construction, the eight terminal backends and [spawnCanvas]) and
    of the socket query helper [sendCanvasRequest] of the command line
    front end, followed by the properties proved about them.

    Conventions of the model.
    - A JavaScript string is the [string] of the bytes of its UTF-8
      encoding, which is also how a text is kept in a file and comes out
      of a child process; the content of a file is the text [file.text()]
      gives for it. White space is what ECMAScript calls WhiteSpace and
      LineTerminator, in that encoding.
    - A JavaScript number is a [number]: an integer that a double holds, or
      an infinity. [parseInt] rounds to the nearest double and [String]
      prints the shortest digits that read back as the same double.
    - An optional argument is an [option]; a condition on a JavaScript value
      is its truthiness, written out where it is used.
    - The file system, child processes and signals are the outside world:
      files are a finite map from paths to contents, and every answer of the
      outside world comes from an oracle that sees the whole history of the
      call so far. Every interaction is logged as an [event] that carries the
      request and the answer.
    - Reading and writing a file does not fail. The outer [try] blocks of
      the getters guard nothing else, so they have no counterpart here; the
      inner ones (a process that does not exist, a listing that does not
      parse) are modelled.
    - An [await] is a call that returns; a promise built around the events
      of a child process is the call of the child together with the event
      that ends it. A write that the source starts without waiting for it
      ([saveAlacrittyPid] and the like inside the creation) takes place where
      it is started. A callback of a timer that runs after the promise of
      its caller is settled is logged where the timer is armed, and its
      body is [run_deferred]. *)

From Stdlib Require Import ZArith Ascii String List Bool Lia.
From stdpp Require Import base option list strings pretty gmap.

Local Open Scope string_scope.
Local Open Scope Z_scope.
Local Open Scope list_scope.
Set Warnings "-register-all".

(** ** JavaScript string helpers *)

Module Js.

(** The double quote character, and a text between double quotes. *)
Definition dq : string := String (ascii_of_nat 34) EmptyString.
Definition quoted (s : string) : string := dq +:+ s +:+ dq.
(** Backslash, line feed and the control character ETX (what the source
    writes as the escape x03). *)
Definition backslash : string := String (ascii_of_nat 92) EmptyString.
Definition lf : string := String (ascii_of_nat 10) EmptyString.
Definition etx : string := String (ascii_of_nat 3) EmptyString.
Definition esc : string := String (ascii_of_nat 27) EmptyString.

(** White space of one byte: tab, line feed, vertical tab, form feed,
    carriage return and space. *)
Definition is_space (c : ascii) : bool :=
  let n := nat_of_ascii c in
  ((9 <=? n)%nat && (n <=? 13)%nat) || (n =? 32)%nat.

Definition is_digit (c : ascii) : bool :=
  let n := nat_of_ascii c in (48 <=? n)%nat && (n <=? 57)%nat.

Definition byte_is (c : ascii) (n : nat) : bool := (nat_of_ascii c =? n)%nat.

(** The rest of a text after the white space character it starts with, if
    it starts with one. Beyond the six of one byte these are U+00A0 (bytes
    194 160), U+1680 (225 154 128), U+2000 to U+200A, U+2028, U+2029 and
    U+202F (226 128 and 128 to 138, 168, 169, 175), U+205F (226 129 159),
    U+3000 (227 128 128) and U+FEFF (239 187 191). *)
Definition skip_space (s : string) : option string :=
  match s with
  | String c r =>
      if is_space c then Some r
      else
        match r with
        | String c1 r1 =>
            if byte_is c 194 && byte_is c1 160 then Some r1
            else
              match r1 with
              | String c2 r2 =>
                  let n2 := nat_of_ascii c2 in
                  if (byte_is c 225 && byte_is c1 154 && byte_is c2 128)
                     || (byte_is c 226 && byte_is c1 128
                         && (((128 <=? n2)%nat && (n2 <=? 138)%nat)
                             || byte_is c2 168 || byte_is c2 169 || byte_is c2 175))
                     || (byte_is c 226 && byte_is c1 129 && byte_is c2 159)
                     || (byte_is c 227 && byte_is c1 128 && byte_is c2 128)
                     || (byte_is c 239 && byte_is c1 187 && byte_is c2 191)
                  then Some r2 else None
              | EmptyString => None
              end
        | EmptyString => None
        end
  | EmptyString => None
  end.

(** White space characters are skipped one after the other; a text has no
    more of them than bytes. *)
Fixpoint trimStart_fuel (n : nat) (s : string) : string :=
  match n with
  | S n' =>
      match skip_space s with
      | Some r => trimStart_fuel n' r
      | None => s
      end
  | O => s
  end.

Definition trimStart (s : string) : string := trimStart_fuel (String.length s) s.

(** A text of white space only. *)
Definition blank (s : string) : bool :=
  match trimStart s with EmptyString => true | _ => false end.

(** The text without the longest end of it that is white space only. *)
Fixpoint trimEnd (s : string) : string :=
  match s with
  | String c r => if blank s then EmptyString else String c (trimEnd r)
  | EmptyString => EmptyString
  end.

(** [s.trim()] *)
Definition trim (s : string) : string := trimEnd (trimStart s).

(** Truthiness of a string, and of an optional string ([undefined] is
    falsy, and so is the empty string). *)
Definition truthy_str (s : string) : bool :=
  match s with EmptyString => false | _ => true end.

Definition truthy (o : option string) : bool :=
  match o with Some s => truthy_str s | None => false end.

(** [a || b] on an optional string with a string default. *)
Definition or_else (o : option string) (d : string) : string :=
  match o with
  | Some s => if truthy_str s then s else d
  | None => d
  end.

(** [o === s] for an optional string [o]. *)
Definition str_is (o : option string) (s : string) : bool :=
  match o with Some v => String.eqb v s | None => false end.

(** Digits of the longest decimal prefix, most significant first. *)
Fixpoint digits_prefix (s : string) : list Z :=
  match s with
  | String c r =>
      if is_digit c then Z.of_nat (nat_of_ascii c - 48) :: digits_prefix r
      else []
  | EmptyString => []
  end.

Definition digits_value (ds : list Z) : Z :=
  fold_left (fun acc d => 10 * acc + d) ds 0.

(** The numbers the code handles: integers and the two infinities. NaN is
    the [None] of [parseInt]; the negative zero is not told from zero (the
    code prints it, tests it and compares it, and all three take it for
    zero). *)
Inductive number :=
| Int (z : Z)
| Infinity (negative : bool).

Coercion Int : Z >-> number.

Definition number_eqb (a b : number) : bool :=
  match a, b with
  | Int x, Int y => x =? y
  | Infinity x, Infinity y => Bool.eqb x y
  | _, _ => false
  end.

(** The double nearest to an integer, ties to the even significand: below
    2^53 every integer is a double; above, the 53 leading bits are kept and
    rounded, and what reaches 2^1024 is an infinity. *)
Definition to_double (z : Z) : number :=
  let a := Z.abs z in
  let e := Z.log2 a - 52 in
  if e <=? 0 then Int z
  else
    let q := Z.shiftr a e in
    let r := a - Z.shiftl q e in
    let half := Z.shiftl 1 (e - 1) in
    let q' := if (half <? r) || ((r =? half) && Z.odd q) then q + 1 else q in
    let m := Z.shiftl q' e in
    if 2 ^ 1024 <=? m then Infinity (z <? 0) else Int (Z.sgn z * m).

(** [parseInt(s, 10)]: leading white space is skipped, one sign is read,
    then the longest run of decimal digits; the value is the double nearest
    to the number they write. [None] is NaN. *)
Definition parseInt (s : string) : option number :=
  let s := trimStart s in
  let '(neg, body) :=
    match s with
    | String c r =>
        if Ascii.eqb c "-"%char then (true, r)
        else if Ascii.eqb c "+"%char then (false, r)
        else (false, s)
    | EmptyString => (false, s)
    end in
  match digits_prefix body with
  | [] => None
  | ds => Some (to_double (if neg then - digits_value ds else digits_value ds))
  end.

(** Truthiness of a number that is not NaN. *)
Definition truthy_num (n : number) : bool :=
  match n with
  | Int z => negb (z =? 0)
  | Infinity _ => true
  end.

(** Of the two multiples of [10^j] next to [x], one that the double [x] is
    the nearest double to: the closer one, and of two equally close the one
    with the even digits. *)
Definition shortest_at (x : Z) (j : nat) : option Z :=
  let p := 10 ^ Z.of_nat j in
  let lo := x / p * p in
  let hi := lo + p in
  let ok v := number_eqb (to_double v) (Int x) in
  match ok lo, ok hi with
  | true, true =>
      Some (if x - lo <? hi - x then lo
            else if hi - x <? x - lo then hi
            else if Z.even (x / p) then lo else hi)
  | true, false => Some lo
  | false, true => Some hi
  | false, false => None
  end.

(** The number with the fewest significant digits that reads back as the
    double [x > 0]: the most zeros at the end are tried first. *)
Fixpoint shortest_from (x : Z) (j : nat) : Z :=
  match shortest_at x j with
  | Some v => v
  | None => match j with S j' => shortest_from x j' | O => x end
  end.

Definition shortest (x : Z) : Z := shortest_from x (Z.to_nat (Z.log2 x)).

Fixpoint strip_zeros (s : string) : string :=
  match s with
  | String c r =>
      match strip_zeros r with
      | EmptyString =>
          if Ascii.eqb c "0"%char then EmptyString else String c EmptyString
      | r' => String c r'
      end
  | EmptyString => EmptyString
  end.

(** The exponent notation: the first digit, the other significant digits
    after a point if there are any, and the power of ten. *)
Definition exponential (v : Z) : string :=
  let ds := pretty v in
  match strip_zeros ds with
  | String d rest =>
      String d (match rest with EmptyString => EmptyString | _ => "." +:+ rest end)
        +:+ "e+" +:+ pretty (Z.of_nat (String.length ds) - 1)
  | EmptyString => ds
  end.

(** [String(n)], also what a template literal puts for [n]: the shortest
    digits, in full below 10^21 and in exponent notation from there on. *)
Definition String_of_num (n : number) : string :=
  match n with
  | Infinity negative => if negative then "-Infinity" else "Infinity"
  | Int z =>
      if z =? 0 then "0"
      else
        let v := shortest (Z.abs z) in
        (if z <? 0 then "-" else EmptyString)
          +:+ (if v <? 10 ^ 21 then pretty v else exponential v)
  end.

(** [s.startsWith(p)] *)
Fixpoint startsWith (p s : string) : bool :=
  match p with
  | EmptyString => true
  | String c p' =>
      match s with
      | String d s' => Ascii.eqb c d && startsWith p' s'
      | EmptyString => false
      end
  end.

(** [s.replace(pat, rep)] with a string pattern: the first occurrence
    only. *)
Fixpoint replace_first (pat rep s : string) : string :=
  if startsWith pat s
  then rep +:+ String.substring (String.length pat)
                 (String.length s - String.length pat) s
  else match s with
       | String c r => String c (replace_first pat rep r)
       | EmptyString => EmptyString
       end.

(** [s.replace(/x/g, rep)] for a single character [x]: every
    occurrence. *)
Fixpoint replace_all_char (x : ascii) (rep s : string) : string :=
  match s with
  | String c r =>
      (if Ascii.eqb c x then rep else String c EmptyString)
        +:+ replace_all_char x rep r
  | EmptyString => EmptyString
  end.

(** [command.replace(/"/g, '\\"')] *)
Definition escape_dq (s : string) : string :=
  replace_all_char (ascii_of_nat 34) (backslash +:+ dq) s.

(** [hay.includes(needle)] *)
Fixpoint includes (needle hay : string) : bool :=
  startsWith needle hay ||
  match hay with
  | String _ r => includes needle r
  | EmptyString => false
  end.

End Js.

Import Js.

(** ** Environment detection *)

Inductive TerminalType :=
| tmux | iterm2 | apple_terminal | kitty | wezterm | alacritty | vscode
| ghostty | none.

#[global] Instance TerminalType_eq_dec : EqDecision TerminalType.
Proof. solve_decision. Defined.

(** The literal the source uses for each classification. *)
Definition TerminalType_name (t : TerminalType) : string :=
  match t with
  | tmux => "tmux"
  | iterm2 => "iterm2"
  | apple_terminal => "apple-terminal"
  | kitty => "kitty"
  | wezterm => "wezterm"
  | alacritty => "alacritty"
  | vscode => "vscode"
  | ghostty => "ghostty"
  | none => "none"
  end.

Record TerminalEnvironment := {
  inTmux : bool;
  inITerm2 : bool;
  inAppleTerminal : bool;
  inKitty : bool;
  inWezTerm : bool;
  inAlacritty : bool;
  inVSCode : bool;
  inGhostty : bool;
  terminalType : TerminalType;
  summary : string;
}.

(** [process.env]: the variables that are set, with their values. *)
Abbreviation process_env := (gmap string string).

Definition detectTerminal (env : process_env) : TerminalEnvironment :=
  let inTmux := truthy (env !! "TMUX") in
  let inITerm2 :=
    str_is (env !! "TERM_PROGRAM") "iTerm.app"
    || truthy (env !! "ITERM_SESSION_ID") in
  let inAppleTerminal := str_is (env !! "TERM_PROGRAM") "Apple_Terminal" in
  let inKitty :=
    str_is (env !! "TERM_PROGRAM") "kitty" || truthy (env !! "KITTY_PID") in
  let inWezTerm := str_is (env !! "TERM_PROGRAM") "WezTerm" in
  let inAlacritty :=
    str_is (env !! "TERM_PROGRAM") "Alacritty"
    || truthy (env !! "ALACRITTY_SOCKET") in
  let inVSCode :=
    str_is (env !! "TERM_PROGRAM") "vscode"
    || truthy (env !! "VSCODE_INJECTION") in
  let inGhostty :=
    str_is (env !! "TERM_PROGRAM") "ghostty"
    || truthy (env !! "GHOSTTY_RESOURCES_DIR") in
  let '(terminalType, summary) :=
    if inTmux then (tmux, "tmux")
    else if inITerm2 then (iterm2, "iTerm2")
    else if inKitty then (kitty, "Kitty")
    else if inWezTerm then (wezterm, "WezTerm")
    else if inAlacritty then (alacritty, "Alacritty (new window mode)")
    else if inVSCode then (vscode, "VS Code (new terminal)")
    else if inGhostty then (ghostty, "Ghostty (new window mode)")
    else if inAppleTerminal
         then (apple_terminal, "Apple Terminal (new window mode)")
    else (none, "unsupported terminal") in
  {| inTmux := inTmux; inITerm2 := inITerm2;
     inAppleTerminal := inAppleTerminal; inKitty := inKitty;
     inWezTerm := inWezTerm; inAlacritty := inAlacritty;
     inVSCode := inVSCode; inGhostty := inGhostty;
     terminalType := terminalType; summary := summary |}.


(** ** JSON values

    What [JSON.parse] returns. A number is kept as the text JavaScript
    prints for it (the same text for [String(n)] and [JSON.stringify(n)]),
    so no arithmetic on doubles is modelled. A JavaScript value that may be
    [undefined] is an [option json]. *)

Inductive json :=
| JNull
| JBool (b : bool)
| JNum (repr : string)
| JStr (s : string)
| JArr (items : list json)
| JObj (fields : list (string * json)).

Module Json.

Fixpoint assoc (k : string) (fs : list (string * json)) : option json :=
  match fs with
  | (k', v) :: r => if String.eqb k k' then Some v else assoc k r
  | [] => None
  end.

(** [v.k] for a value [v] that is neither [null] nor [undefined]: an own
    property of an object, [undefined] for everything else the code reads
    (the names it reads are no members of arrays, strings, numbers or
    booleans). *)
Definition prop (v : json) (k : string) : option json :=
  match v with
  | JObj fs => assoc k fs
  | _ => None
  end.

(** [v.k] where reading a property of [null] throws a TypeError: the outer
    [None]. *)
Definition get (v : json) (k : string) : option (option json) :=
  match v with
  | JNull => None
  | _ => Some (prop v k)
  end.

Definition truthy_json (v : option json) : bool :=
  match v with
  | None | Some JNull | Some (JBool false) => false
  | Some (JNum r) => negb (String.eqb r "0")
  | Some (JStr s) => truthy_str s
  | _ => true
  end.

Definition join (sep : string) (l : list string) : string :=
  match l with
  | [] => EmptyString
  | x :: r => fold_left (fun acc y => acc +:+ sep +:+ y) r x
  end.

(** [String(v)] *)
Fixpoint to_String (v : json) : string :=
  match v with
  | JNull => "null"
  | JBool b => if b then "true" else "false"
  | JNum r => r
  | JStr s => s
  | JArr l =>
      join ","
        (map (fun x => match x with JNull => EmptyString | _ => to_String x end) l)
  | JObj _ => "[object Object]"
  end.

Definition String_of (v : option json) : string :=
  match v with Some j => to_String j | None => "undefined" end.

(** The values a [for ... of] loop visits: the items of an array, the
    characters of a string; anything else is not iterable ([None], a
    TypeError). *)
Fixpoint chars (s : string) : list json :=
  match s with
  | String c r => JStr (String c EmptyString) :: chars r
  | EmptyString => []
  end.

Definition iterate (v : json) : option (list json) :=
  match v with
  | JArr l => Some l
  | JStr s => Some (chars s)
  | _ => None
  end.

(** [v || []] followed by iteration. *)
Definition iterate_or_empty (v : option json) : option (list json) :=
  if truthy_json v then match v with Some j => iterate j | None => Some [] end
  else Some [].

Definition hex_digit (n : nat) : ascii :=
  ascii_of_nat (if (n <? 10)%nat then 48 + n else 87 + n).

Definition escape_char (c : ascii) : string :=
  let n := nat_of_ascii c in
  if (n =? 34)%nat then backslash +:+ dq
  else if (n =? 92)%nat then backslash +:+ backslash
  else if (n =? 8)%nat then backslash +:+ "b"
  else if (n =? 12)%nat then backslash +:+ "f"
  else if (n =? 10)%nat then backslash +:+ "n"
  else if (n =? 13)%nat then backslash +:+ "r"
  else if (n =? 9)%nat then backslash +:+ "t"
  else if (n <? 32)%nat
       then backslash +:+ "u00"
            +:+ String (hex_digit (n / 16)) (String (hex_digit (n mod 16)) EmptyString)
  else String c EmptyString.

Fixpoint escape (s : string) : string :=
  match s with
  | String c r => escape_char c +:+ escape r
  | EmptyString => EmptyString
  end.

Definition quote (s : string) : string := dq +:+ escape s +:+ dq.

(** [JSON.stringify(v)] for a parsed value. *)
Fixpoint stringify_json (v : json) : string :=
  match v with
  | JNull => "null"
  | JBool b => if b then "true" else "false"
  | JNum r => r
  | JStr s => quote s
  | JArr l => "[" +:+ join "," (map stringify_json l) +:+ "]"
  | JObj fs =>
      "{" +:+ join "," (map (fun kv => quote (fst kv) +:+ ":" +:+ stringify_json (snd kv)) fs)
          +:+ "}"
  end.

(** [JSON.stringify(v)]: [undefined] gives [undefined]. *)
Definition stringify (v : option json) : option string :=
  stringify_json <$> v.

End Json.

(** ** The outside world *)

Inductive Signal := SIG0 | SIGTERM.

(** What [spawnSync] returns: [status] is [null] when the program could not
    be run or was killed; [stdout] may be missing. *)
Record SyncResult := { status : option Z; stdout : option string }.

(** How an awaited child process ends: the error event, or the close event
    with the exit code ([null] after a signal), after the text that arrived
    on its standard output. *)
Inductive ChildExit :=
| LaunchError
| Closed (code : option Z) (out : string).

Inductive Backend :=
| Tmux | ITerm2 | AppleTerminal | Kitty | WezTerm | Alacritty | VSCode
| Ghostty.

#[global] Instance Backend_eq_dec : EqDecision Backend.
Proof. solve_decision. Defined.

(** Callbacks handed to [setTimeout] that nothing waits for: the two
    follow-ups of the creations, and the second child of a reuse whose first
    child could not be started. *)
Inductive Deferred :=
| PositionAlacritty
| GhosttyFollowUp
| LateSpawn (cmd : string) (args : list string).

Inductive event :=
| EvWrite (path content : string)
| EvSpawnSync (cmd : string) (args : list string) (timeout : option nat)
    (r : SyncResult)
| EvSpawn (cmd : string) (args : list string) (r : ChildExit)
| EvSpawnDetached (cmd : string) (args : list string) (pid : option Z)
| EvKill (pid : number) (sig : Signal) (ok : bool)
| EvSleep (ms : nat)
| EvDefer (ms : nat) (task : Deferred)
| EvLog (msg : string)
| EvAttempt (b : Backend) (ok : bool).

(** What the program takes from its host. The four answer functions get the
    history of the call, most recent event first. [JSON_parse] answers
    [None] for a SyntaxError. *)
Record Host := {
  process_environment : process_env;
  import_meta_dir : string;
  process_platform : string;
  JSON_parse : string -> option json;
  spawnSync_answer : list event -> string -> list string -> option nat -> SyncResult;
  spawn_answer : list event -> string -> list string -> ChildExit;
  pid_answer : list event -> string -> list string -> option Z;
  kill_answer : list event -> number -> Signal -> bool;
}.

(** The state a call runs in: the files, and the log of the call, most
    recent event first. *)
Record World := { files : gmap string string; log : list event }.

(** The events in the order they happened. *)
Definition trace (w : World) : list event := rev (log w).

Definition init (fs : gmap string string) : World := {| files := fs; log := [] |}.

Definition M (A : Type) : Type := World -> A * World.

Definition ret {A} (a : A) : M A := fun w => (a, w).

Definition bind {A B} (m : M A) (k : A -> M B) : M B :=
  fun w => let '(a, w') := m w in k a w'.

Notation "'let*' x ':=' m 'in' k" := (bind m (fun x => k))
  (at level 10, x pattern, m at level 200, k at level 200).

Definition emit (e : event) : M unit :=
  fun w => (tt, {| files := files w; log := e :: log w |}).

Definition when (b : bool) (m : M unit) : M unit := if b then m else ret tt.

(** [x === 0] for an exit status. *)
Definition is_zero (c : option Z) : bool :=
  match c with Some z => z =? 0 | None => false end.

(** ** The backends of terminal.ts *)

Section Terminal.

Variable H : Host.

(** *** Primitives *)

(** [Bun.write(path, content)]: the file is replaced as a whole. *)
Definition Bun_write (path content : string) : M unit :=
  fun w => (tt, {| files := <[path := content]> (files w);
                   log := EvWrite path content :: log w |}).

(** [Bun.file(path)]: [exists()] and [text()] in one read; [None] when the
    file does not exist. *)
Definition Bun_file (path : string) : M (option string) :=
  fun w => (files w !! path, w).

Definition spawnSync (cmd : string) (args : list string) (timeout : option nat)
  : M SyncResult :=
  fun w =>
    let r := spawnSync_answer H (log w) cmd args timeout in
    (r, {| files := files w; log := EvSpawnSync cmd args timeout r :: log w |}).

(** [spawn(cmd, args)] with handlers for its output, close and error
    events: the call and the events it waits for. *)
Definition spawn (cmd : string) (args : list string) : M ChildExit :=
  fun w =>
    let r := spawn_answer H (log w) cmd args in
    (r, {| files := files w; log := EvSpawn cmd args r :: log w |}).

(** [spawn(cmd, args, {detached: true, stdio: ignore})]: only [proc.pid]
    is looked at. *)
Definition spawn_detached (cmd : string) (args : list string) : M (option Z) :=
  fun w =>
    let p := pid_answer H (log w) cmd args in
    (p, {| files := files w; log := EvSpawnDetached cmd args p :: log w |}).

(** [process.kill(pid, sig)]: [false] when it throws. *)
Definition process_kill (pid : number) (sig : Signal) : M bool :=
  fun w =>
    let ok := kill_answer H (log w) pid sig in
    (ok, {| files := files w; log := EvKill pid sig ok :: log w |}).

(** A [setTimeout] whose callback the caller waits for. *)
Definition sleep (ms : nat) : M unit := emit (EvSleep ms).

(** A [setTimeout] whose callback runs after the caller has returned. *)
Definition defer (ms : nat) (task : Deferred) : M unit := emit (EvDefer ms task).

Definition console_error (msg : string) : M unit := emit (EvLog msg).

(** *** tmux *)

Definition CANVAS_PANE_FILE : string := "/tmp/claude-canvas-pane-id".

Definition getCanvasPaneId : M (option string) :=
  let* file := Bun_file CANVAS_PANE_FILE in
  match file with
  | Some text =>
      let paneId := trim text in
      let* result :=
        spawnSync "tmux" ["display-message"; "-t"; paneId; "-p"; "#{pane_id}"] None in
      let output := trim <$> stdout result in
      if is_zero (status result) && str_is output paneId
      then ret (Some paneId)
      else let* _ := Bun_write CANVAS_PANE_FILE "" in ret None
  | None => ret None
  end.

Definition saveCanvasPaneId (paneId : string) : M unit :=
  Bun_write CANVAS_PANE_FILE paneId.

Definition createNewPane (command : string) : M bool :=
  let args :=
    ["split-window"; "-h"; "-p"; "67"; "-P"; "-F"; "#{pane_id}"; command] in
  let* proc := spawn "tmux" args in
  match proc with
  | Closed code paneId =>
      let* _ := when (is_zero code && truthy_str (trim paneId))
                  (saveCanvasPaneId (trim paneId)) in
      ret (is_zero code)
  | LaunchError => ret false
  end.

(** The close handler of the first child does not look at its exit code.
    When the first child cannot be started, its error handler resolves with
    [false]; its close event follows all the same and arms the timer, so the
    second child is started later, when nothing waits for it any more. *)
Definition reuseExistingPane (paneId command : string) : M bool :=
  let args := ["send-keys"; "-t"; paneId; "clear && " +:+ command; "Enter"] in
  let* killProc := spawn "tmux" ["send-keys"; "-t"; paneId; "C-c"] in
  match killProc with
  | Closed _ _ =>
      let* _ := sleep 150 in
      let* proc := spawn "tmux" args in
      match proc with
      | Closed code _ => ret (is_zero code)
      | LaunchError => ret false
      end
  | LaunchError =>
      let* _ := defer 150 (LateSpawn "tmux" args) in
      ret false
  end.

(** The common shape of the adapters: a block that may return [true] early,
    then the creation. [reuse] answers whether the adapter has returned. *)
Definition or_create (reuse : M bool) (create : M bool) : M bool :=
  let* returned := reuse in
  if returned then ret true else create.

Definition spawnTmux (command : string) : M bool :=
  let* existingPaneId := getCanvasPaneId in
  or_create
    (match existingPaneId with
     | Some paneId =>
         if truthy_str paneId then
           let* reused := reuseExistingPane paneId command in
           if reused then ret true
           else let* _ := Bun_write CANVAS_PANE_FILE "" in ret false
         else ret false
     | None => ret false
     end)
    (createNewPane command).

(** *** iTerm2 *)

Definition ITERM2_SESSION_FILE : string := "/tmp/claude-canvas-iterm2-session".

Definition iterm2_checkScript (sessionId : string) : string :=
  "
          tell application " +:+ dq +:+ "iTerm2" +:+ dq +:+ "
            repeat with w in windows
              repeat with t in tabs of w
                repeat with s in sessions of t
                  if unique ID of s is " +:+ dq +:+ sessionId +:+ dq +:+ " then
                    return " +:+ dq +:+ "exists" +:+ dq +:+ "
                  end if
                end repeat
              end repeat
            end repeat
            return " +:+ dq +:+ "not_found" +:+ dq +:+ "
          end tell
        ".

Definition getITerm2SessionId : M (option string) :=
  let* file := Bun_file ITERM2_SESSION_FILE in
  match file with
  | Some text =>
      let sessionId := trim text in
      if truthy_str sessionId then
        let* result := spawnSync "osascript" ["-e"; iterm2_checkScript sessionId] None in
        if is_zero (status result) && str_is (trim <$> stdout result) "exists"
        then ret (Some sessionId)
        else let* _ := Bun_write ITERM2_SESSION_FILE "" in ret None
      else ret None
  | None => ret None
  end.

Definition saveITerm2SessionId (sessionId : string) : M unit :=
  Bun_write ITERM2_SESSION_FILE sessionId.

(** The script up to the command, and after it. *)
Definition iterm2_splitScript_head : string :=
  "
      tell application " +:+ dq +:+ "iTerm2" +:+ dq +:+ "
        tell current session of current tab of current window
          set newSession to split vertically with same profile
          tell newSession
            write text " +:+ dq.

Definition iterm2_splitScript_tail : string :=
  dq +:+ "
          end tell
          return unique ID of newSession
        end tell
      end tell
    ".

Definition iterm2_splitScript (command : string) : string :=
  iterm2_splitScript_head +:+ escape_dq command +:+ iterm2_splitScript_tail.

Definition createITerm2SplitPane (command : string) : M bool :=
  let* proc := spawn "osascript" ["-e"; iterm2_splitScript command] in
  match proc with
  | Closed code sessionId =>
      if is_zero code && truthy_str (trim sessionId) then
        let* _ := saveITerm2SessionId (trim sessionId) in ret true
      else ret false
  | LaunchError => ret false
  end.

Definition iterm2_reuseScript (sessionId command : string) : string :=
  "
      tell application " +:+ dq +:+ "iTerm2" +:+ dq +:+ "
        repeat with w in windows
          repeat with t in tabs of w
            repeat with s in sessions of t
              if unique ID of s is " +:+ dq +:+ sessionId +:+ dq +:+ " then
                tell s
                  write text (ASCII character 3)
                  delay 0.15
                  write text " +:+ dq +:+ "clear && " +:+ (escape_dq command) +:+ dq +:+ "
                end tell
                return " +:+ dq +:+ "success" +:+ dq +:+ "
              end if
            end repeat
          end repeat
        end repeat
        return " +:+ dq +:+ "not_found" +:+ dq +:+ "
      end tell
    ".

Definition reuseITerm2Session (sessionId command : string) : M bool :=
  let* proc := spawn "osascript" ["-e"; iterm2_reuseScript sessionId command] in
  match proc with
  | Closed code output => ret (is_zero code && String.eqb (trim output) "success")
  | LaunchError => ret false
  end.

Definition spawnITerm2 (command : string) : M bool :=
  let* existingSessionId := getITerm2SessionId in
  or_create
    (match existingSessionId with
     | Some sessionId =>
         if truthy_str sessionId then
           let* reused := reuseITerm2Session sessionId command in
           if reused then ret true
           else let* _ := Bun_write ITERM2_SESSION_FILE "" in ret false
         else ret false
     | None => ret false
     end)
    (createITerm2SplitPane command).

(** *** Apple Terminal *)

Definition APPLE_TERMINAL_WINDOW_FILE : string := "/tmp/claude-canvas-terminal-window".

Definition terminal_checkScript (windowId : number) : string :=
  "
          tell application " +:+ dq +:+ "Terminal" +:+ dq +:+ "
            repeat with w in windows
              if id of w is " +:+ (String_of_num windowId) +:+ " then
                return " +:+ dq +:+ "exists" +:+ dq +:+ "
              end if
            end repeat
            return " +:+ dq +:+ "not_found" +:+ dq +:+ "
          end tell
        ".

Definition getAppleTerminalWindowId : M (option number) :=
  let* file := Bun_file APPLE_TERMINAL_WINDOW_FILE in
  match file with
  | Some text =>
      match parseInt (trim text) with
      | Some windowId =>
          let* result := spawnSync "osascript" ["-e"; terminal_checkScript windowId] None in
          if is_zero (status result) && str_is (trim <$> stdout result) "exists"
          then ret (Some windowId)
          else let* _ := Bun_write APPLE_TERMINAL_WINDOW_FILE "" in ret None
      | None => ret None
      end
  | None => ret None
  end.

Definition saveAppleTerminalWindowId (windowId : number) : M unit :=
  Bun_write APPLE_TERMINAL_WINDOW_FILE (String_of_num windowId).

(** The script up to the command, and after it. *)
Definition terminal_createScript_head : string :=
  "
      tell application " +:+ dq +:+ "Terminal" +:+ dq +:+ "
        do script " +:+ dq.

Definition terminal_createScript_tail : string :=
  dq +:+ "
        set canvasWindow to front window
        set windowId to id of canvasWindow
        tell application " +:+ dq +:+ "Finder" +:+ dq +:+ "
          set screenBounds to bounds of window of desktop
          set screenWidth to item 3 of screenBounds
          set screenHeight to item 4 of screenBounds
        end tell
        set bounds of canvasWindow to {(screenWidth / 2), 0, screenWidth, screenHeight}
        set custom title of canvasWindow to " +:+ dq +:+ "Canvas" +:+ dq +:+ "
        return windowId
      end tell
    ".

Definition terminal_createScript (command : string) : string :=
  terminal_createScript_head +:+ escape_dq command +:+ terminal_createScript_tail.

Definition createAppleTerminalWindow (command : string) : M bool :=
  let* proc := spawn "osascript" ["-e"; terminal_createScript command] in
  match proc with
  | Closed code windowId =>
      match parseInt (trim windowId) with
      | Some id =>
          if is_zero code then
            let* _ := saveAppleTerminalWindowId id in ret true
          else ret false
      | None => ret false
      end
  | LaunchError => ret false
  end.

Definition terminal_reuseScript (windowId : number) (command : string) : string :=
  "
      tell application " +:+ dq +:+ "Terminal" +:+ dq +:+ "
        repeat with w in windows
          if id of w is " +:+ (String_of_num windowId) +:+ " then
            set frontmost of w to true
            do script " +:+ dq +:+ "clear && " +:+ (escape_dq command) +:+ dq +:+ " in w
            return " +:+ dq +:+ "success" +:+ dq +:+ "
          end if
        end repeat
        return " +:+ dq +:+ "not_found" +:+ dq +:+ "
      end tell
    ".

Definition reuseAppleTerminalWindow (windowId : number) (command : string) : M bool :=
  let* proc := spawn "osascript" ["-e"; terminal_reuseScript windowId command] in
  match proc with
  | Closed code output => ret (is_zero code && String.eqb (trim output) "success")
  | LaunchError => ret false
  end.

Definition spawnAppleTerminal (command : string) : M bool :=
  let* existingWindowId := getAppleTerminalWindowId in
  or_create
    (match existingWindowId with
     | Some windowId =>
         if truthy_num windowId then
           let* reused := reuseAppleTerminalWindow windowId command in
           if reused then ret true
           else let* _ := Bun_write APPLE_TERMINAL_WINDOW_FILE "" in ret false
         else ret false
     | None => ret false
     end)
    (createAppleTerminalWindow command).

(** *** WezTerm *)

Definition WEZTERM_PANE_FILE : string := "/tmp/claude-canvas-wezterm-pane".

(** [panes.some(p => String(p.pane_id) === paneId)] on the items of an
    array; [None] when reading [pane_id] throws. *)
Fixpoint panes_some (paneId : string) (panes : list json) : option bool :=
  match panes with
  | [] => Some false
  | p :: rest =>
      match Json.get p "pane_id" with
      | Some v =>
          if String.eqb (Json.String_of v) paneId then Some true
          else panes_some paneId rest
      | None => None
      end
  end.

(** The [try] block of the probe: parse the listing and look for the pane.
    A SyntaxError, a listing that is no array (it has no [some]) and a
    [null] item all end in the [catch], which is [false] here. *)
Definition wezterm_pane_listed (out : option string) (paneId : string) : bool :=
  match JSON_parse H (or_else out "[]") with
  | Some (JArr panes) => default false (panes_some paneId panes)
  | _ => false
  end.

Definition getWezTermPaneId : M (option string) :=
  let* file := Bun_file WEZTERM_PANE_FILE in
  match file with
  | Some text =>
      let paneId := trim text in
      if truthy_str paneId then
        let* result := spawnSync "wezterm" ["cli"; "list"; "--format=json"] None in
        if is_zero (status result) && wezterm_pane_listed (stdout result) paneId
        then ret (Some paneId)
        else let* _ := Bun_write WEZTERM_PANE_FILE "" in ret None
      else ret None
  | None => ret None
  end.

Definition saveWezTermPaneId (paneId : string) : M unit :=
  Bun_write WEZTERM_PANE_FILE paneId.

Definition createWezTermSplitPane (command : string) : M bool :=
  let args :=
    ["cli"; "split-pane"; "--right"; "--percent"; "67"; "--"; "bash"; "-c"; command] in
  let* proc := spawn "wezterm" args in
  match proc with
  | Closed code output =>
      if is_zero code then
        let paneId := trim output in
        let* _ := when (truthy_str paneId) (saveWezTermPaneId paneId) in
        ret true
      else ret false
  | LaunchError => ret false
  end.

(** As for tmux: the exit code of the first child is not looked at, and
    after its error event the close event still arms the timer. *)
Definition reuseWezTermPane (paneId command : string) : M bool :=
  let newCommand := "clear && " +:+ command +:+ lf in
  let args := ["cli"; "send-text"; "--pane-id"; paneId; "--no-paste"; newCommand] in
  let* ctrlC :=
    spawn "wezterm" ["cli"; "send-text"; "--pane-id"; paneId; "--no-paste"; etx] in
  match ctrlC with
  | Closed _ _ =>
      let* _ := sleep 150 in
      let* sendProc := spawn "wezterm" args in
      match sendProc with
      | Closed code _ => ret (is_zero code)
      | LaunchError => ret false
      end
  | LaunchError =>
      let* _ := defer 150 (LateSpawn "wezterm" args) in
      ret false
  end.

Definition spawnWezTerm (command : string) : M bool :=
  let* existingPaneId := getWezTermPaneId in
  or_create
    (match existingPaneId with
     | Some paneId =>
         if truthy_str paneId then
           let* reused := reuseWezTermPane paneId command in
           if reused then ret true
           else let* _ := Bun_write WEZTERM_PANE_FILE "" in ret false
         else ret false
     | None => ret false
     end)
    (createWezTermSplitPane command).

(** *** Kitty *)

Definition KITTY_WINDOW_FILE : string := "/tmp/claude-canvas-kitty-window".

(** The three nested loops of the probe over the window tree. [Some true]:
    the window was found; [Some false]: the loop ran to its end; [None]: a
    TypeError was thrown on the way. *)
Fixpoint kitty_wins (windowId : string) (wins : list json) : option bool :=
  match wins with
  | [] => Some false
  | win :: rest =>
      match Json.get win "id" with
      | Some v =>
          if String.eqb (Json.String_of v) windowId then Some true
          else kitty_wins windowId rest
      | None => None
      end
  end.

Fixpoint kitty_tabs (windowId : string) (tabs : list json) : option bool :=
  match tabs with
  | [] => Some false
  | tab :: rest =>
      match Json.get tab "windows" with
      | Some v =>
          match Json.iterate_or_empty v with
          | Some wins =>
              match kitty_wins windowId wins with
              | Some false => kitty_tabs windowId rest
              | r => r
              end
          | None => None
          end
      | None => None
      end
  end.

Fixpoint kitty_osWindows (windowId : string) (osWindows : list json) : option bool :=
  match osWindows with
  | [] => Some false
  | osWindow :: rest =>
      match Json.get osWindow "tabs" with
      | Some v =>
          match Json.iterate_or_empty v with
          | Some tabs =>
              match kitty_tabs windowId tabs with
              | Some false => kitty_osWindows windowId rest
              | r => r
              end
          | None => None
          end
      | None => None
      end
  end.

(** The [try] block of the probe; a SyntaxError or TypeError ends in the
    [catch], which is [false] here. *)
Definition kitty_window_listed (out : option string) (windowId : string) : bool :=
  match JSON_parse H (or_else out "[]") with
  | Some windows =>
      match Json.iterate windows with
      | Some osWindows => default false (kitty_osWindows windowId osWindows)
      | None => false
      end
  | None => false
  end.

Definition getKittyWindowId : M (option string) :=
  let* file := Bun_file KITTY_WINDOW_FILE in
  match file with
  | Some text =>
      let windowId := trim text in
      if truthy_str windowId then
        let* result := spawnSync "kitty" ["@"; "ls"] None in
        if is_zero (status result) && kitty_window_listed (stdout result) windowId
        then ret (Some windowId)
        else let* _ := Bun_write KITTY_WINDOW_FILE "" in ret None
      else ret None
  | None => ret None
  end.

Definition saveKittyWindowId (windowId : string) : M unit :=
  Bun_write KITTY_WINDOW_FILE windowId.

Definition isKittyRemoteControlAvailable : M bool :=
  let* result := spawnSync "kitty" ["@"; "ls"] (Some 2000%nat) in
  ret (is_zero (status result)).

Definition createKittySplitPane (command : string) : M bool :=
  let* available := isKittyRemoteControlAvailable in
  if available then
    let args :=
      ["@"; "launch"; "--location=vsplit"; "--cwd=current"; "--title=Canvas";
       "bash"; "-c"; command] in
    let* proc := spawn "kitty" args in
    match proc with
    | Closed code output =>
        if is_zero code then
          let windowId := trim output in
          let* _ := when (truthy_str windowId) (saveKittyWindowId windowId) in
          ret true
        else ret false
    | LaunchError => ret false
    end
  else
    let* _ := spawn_detached "kitty" ["--title=Canvas"; "bash"; "-c"; command] in
    ret true.

(** As for tmux: the exit code of the first child is not looked at, and
    after its error event the close event still arms the timer. *)
Definition reuseKittyWindow (windowId command : string) : M bool :=
  let newCommand := "clear && " +:+ command +:+ lf in
  let args := ["@"; "send-text"; "--match"; "id:" +:+ windowId; newCommand] in
  let* ctrlC :=
    spawn "kitty" ["@"; "send-text"; "--match"; "id:" +:+ windowId; etx] in
  match ctrlC with
  | Closed _ _ =>
      let* _ := sleep 150 in
      let* sendProc := spawn "kitty" args in
      match sendProc with
      | Closed code _ => ret (is_zero code)
      | LaunchError => ret false
      end
  | LaunchError =>
      let* _ := defer 150 (LateSpawn "kitty" args) in
      ret false
  end.

Definition spawnKitty (command : string) : M bool :=
  let* available := isKittyRemoteControlAvailable in
  or_create
    (if available then
       let* existingWindowId := getKittyWindowId in
       match existingWindowId with
       | Some windowId =>
           if truthy_str windowId then
             let* reused := reuseKittyWindow windowId command in
             if reused then ret true
             else let* _ := Bun_write KITTY_WINDOW_FILE "" in ret false
           else ret false
       | None => ret false
       end
     else ret false)
    (createKittySplitPane command).

(** *** The backends that keep a process id: Alacritty, VS Code, Ghostty *)

Definition ALACRITTY_PID_FILE : string := "/tmp/claude-canvas-alacritty-pid".
Definition VSCODE_PID_FILE : string := "/tmp/claude-canvas-vscode-pid".
Definition GHOSTTY_PID_FILE : string := "/tmp/claude-canvas-ghostty-pid".

Definition getAlacrittyPid : M (option number) :=
  let* file := Bun_file ALACRITTY_PID_FILE in
  match file with
  | Some text =>
      match parseInt (trim text) with
      | Some pid =>
          let* alive := process_kill pid SIG0 in
          if alive then ret (Some pid)
          else let* _ := Bun_write ALACRITTY_PID_FILE "" in ret None
      | None => ret None
      end
  | None => ret None
  end.

Definition saveAlacrittyPid (pid : number) : M unit :=
  Bun_write ALACRITTY_PID_FILE (String_of_num pid).

Definition alacritty_positionScript : string :=
  "
            tell application " +:+ dq +:+ "System Events" +:+ dq +:+ "
              tell process " +:+ dq +:+ "Alacritty" +:+ dq +:+ "
                set frontmost to true
                tell application " +:+ dq +:+ "Finder" +:+ dq +:+ "
                  set screenBounds to bounds of window of desktop
                  set screenWidth to item 3 of screenBounds
                  set screenHeight to item 4 of screenBounds
                end tell
                try
                  set position of front window to {(screenWidth / 2), 0}
                  set size of front window to {(screenWidth / 2), screenHeight}
                end try
              end tell
            end tell
          ".

Definition createAlacrittyWindow (command : string) : M bool :=
  let* pid :=
    spawn_detached "alacritty" ["--title"; "Canvas"; "-e"; "/bin/sh"; "-c"; command] in
  match pid with
  | Some p =>
      if truthy_num p then
        let* _ := saveAlacrittyPid p in
        let* _ := when (String.eqb (process_platform H) "darwin")
                    (defer 500 PositionAlacritty) in
        ret true
      else ret false
  | None => ret false
  end.

(** [try { process.kill(pid, SIGTERM); await sleep(200) } catch {}] *)
Definition terminate (pid : number) : M unit :=
  let* ok := process_kill pid SIGTERM in
  when ok (sleep 200).

Definition spawnAlacritty (command : string) : M bool :=
  let* existingPid := getAlacrittyPid in
  let* _ :=
    match existingPid with
    | Some pid =>
        when (truthy_num pid)
          (let* _ := terminate pid in Bun_write ALACRITTY_PID_FILE "")
    | None => ret tt
    end in
  createAlacrittyWindow command.

Definition getVSCodePid : M (option number) :=
  let* file := Bun_file VSCODE_PID_FILE in
  match file with
  | Some text =>
      match parseInt (trim text) with
      | Some pid =>
          let* alive := process_kill pid SIG0 in
          if alive then ret (Some pid)
          else let* _ := Bun_write VSCODE_PID_FILE "" in ret None
      | None => ret None
      end
  | None => ret None
  end.

Definition saveVSCodePid (pid : number) : M unit :=
  Bun_write VSCODE_PID_FILE (String_of_num pid).

Definition vscode_notice : string :=
  esc +:+ "[33m[Canvas] Started in new process. Use VS Code's split terminal (Cmd/Ctrl+Shift+5) to view side-by-side."
      +:+ esc +:+ "[0m".

Definition createVSCodeTerminal (command : string) : M bool :=
  let* pid := spawn_detached "bash" ["-c"; command] in
  match pid with
  | Some p =>
      if truthy_num p then
        let* _ := saveVSCodePid p in
        let* _ := console_error vscode_notice in
        ret true
      else ret false
  | None => ret false
  end.

Definition spawnVSCode (command : string) : M bool :=
  let* existingPid := getVSCodePid in
  let* _ :=
    match existingPid with
    | Some pid =>
        when (truthy_num pid)
          (let* _ := terminate pid in Bun_write VSCODE_PID_FILE "")
    | None => ret tt
    end in
  createVSCodeTerminal command.

Definition getGhosttyPid : M (option number) :=
  let* file := Bun_file GHOSTTY_PID_FILE in
  match file with
  | Some text =>
      match parseInt (trim text) with
      | Some pid =>
          let* alive := process_kill pid SIG0 in
          if alive then ret (Some pid)
          else let* _ := Bun_write GHOSTTY_PID_FILE "" in ret None
      | None => ret None
      end
  | None => ret None
  end.

Definition saveGhosttyPid (pid : number) : M unit :=
  Bun_write GHOSTTY_PID_FILE (String_of_num pid).

Definition ghostty_positionScript : string :=
  "
            tell application " +:+ dq +:+ "System Events" +:+ dq +:+ "
              tell process " +:+ dq +:+ "ghostty" +:+ dq +:+ "
                set frontmost to true
                tell application " +:+ dq +:+ "Finder" +:+ dq +:+ "
                  set screenBounds to bounds of window of desktop
                  set screenWidth to item 3 of screenBounds
                  set screenHeight to item 4 of screenBounds
                end tell
                try
                  set position of front window to {(screenWidth / 2), 0}
                  set size of front window to {(screenWidth / 2), screenHeight}
                end try
              end tell
            end tell
          ".

Definition createGhosttyWindow (command : string) : M bool :=
  let darwin := String.eqb (process_platform H) "darwin" in
  let* pid :=
    if darwin
    then spawn_detached "open"
           ["-na"; "Ghostty.app"; "--args"; "-e"; "/bin/sh"; "-c"; command]
    else spawn_detached "ghostty" ["-e"; "/bin/sh"; "-c"; command] in
  match pid with
  | Some p =>
      if truthy_num p then
        let* _ := if darwin then defer 1000 GhosttyFollowUp else saveGhosttyPid p in
        ret true
      else ret false
  | None => ret false
  end.

Definition spawnGhostty (command : string) : M bool :=
  let* existingPid := getGhosttyPid in
  let* _ :=
    match existingPid with
    | Some pid =>
        when (truthy_num pid)
          (let* _ := terminate pid in Bun_write GHOSTTY_PID_FILE "")
    | None => ret tt
    end in
  createGhosttyWindow command.

(** The bodies of the deferred callbacks. The handlers of the late child
    of a reuse settle a promise that is settled already. *)
Definition run_deferred (task : Deferred) : M unit :=
  match task with
  | LateSpawn cmd args =>
      let* _ := spawn cmd args in
      ret tt
  | PositionAlacritty =>
      let* _ := spawn_detached "osascript" ["-e"; alacritty_positionScript] in
      ret tt
  | GhosttyFollowUp =>
      let* result := spawnSync "pgrep" ["-n"; "ghostty"] None in
      let* _ :=
        match stdout result with
        | Some out =>
            match parseInt (trim out) with
            | Some pid => saveGhosttyPid pid
            | None => ret tt
            end
        | None => ret tt
        end in
      let* _ := spawn_detached "osascript" ["-e"; ghostty_positionScript] in
      ret tt
  end.

(** *** The orchestrator *)

Record SpawnResult := { method : string; pid : option Z }.

Record SpawnOptions := { socketPath : option string; scenario : option string }.

(** How an asynchronous function ends: a value, or a thrown [Error] with
    its message. *)
Inductive Completion (A : Type) :=
| Return (a : A)
| Throw (message : string).
Arguments Return {A} a.
Arguments Throw {A} message.

Definition unsupported_message : string :=
  "Canvas requires a supported terminal: iTerm2, tmux, Kitty, WezTerm, Alacritty, VS Code, Ghostty, or Apple Terminal.".

Definition default_socketPath (id : string) : string :=
  "/tmp/canvas-" +:+ id +:+ ".sock".

Definition configFile (id : string) : string :=
  "/tmp/canvas-config-" +:+ id +:+ ".json".

Definition runScript : string :=
  replace_first "/src" "" (import_meta_dir H) +:+ "/run-canvas.sh".

(** The first part of [spawnCanvas]: the command line, and the side file
    that carries the configuration. *)
Definition buildCommand (kind id : string) (configJson : option string)
    (options : option SpawnOptions) : M string :=
  let socketPath := or_else (options ≫= socketPath) (default_socketPath id) in
  let command := runScript +:+ " show " +:+ kind +:+ " --id " +:+ id in
  let* command :=
    match configJson with
    | Some json =>
        if truthy_str json then
          let* _ := Bun_write (configFile id) json in
          ret (command +:+ " --config " +:+ dq +:+ "$(cat " +:+ configFile id +:+ ")" +:+ dq)
        else ret command
    | None => ret command
    end in
  let command := command +:+ " --socket " +:+ socketPath in
  let command :=
    match options ≫= scenario with
    | Some name =>
        if truthy_str name then command +:+ " --scenario " +:+ name else command
    | None => command
    end in
  ret command.

Definition adapter (b : Backend) : string -> M bool :=
  match b with
  | ITerm2 => spawnITerm2
  | Tmux => spawnTmux
  | Kitty => spawnKitty
  | WezTerm => spawnWezTerm
  | Alacritty => spawnAlacritty
  | VSCode => spawnVSCode
  | Ghostty => spawnGhostty
  | AppleTerminal => spawnAppleTerminal
  end.

Definition method_name (b : Backend) : string :=
  match b with
  | ITerm2 => "iterm2"
  | Tmux => "tmux"
  | Kitty => "kitty"
  | WezTerm => "wezterm"
  | Alacritty => "alacritty"
  | VSCode => "vscode"
  | Ghostty => "ghostty"
  | AppleTerminal => "apple-terminal"
  end.

(** One [if (env.inX) { const result = await spawnX(command); if (result)
    return { method } }] block, followed by the rest of the function. The
    event [EvAttempt] is a ghost of the model: it records which adapter was
    called and what it answered. *)
Definition attempt (flag : bool) (b : Backend) (command : string)
    (rest : M (Completion SpawnResult)) : M (Completion SpawnResult) :=
  if flag then
    let* result := adapter b command in
    let* _ := emit (EvAttempt b result) in
    if result then ret (Return {| method := method_name b; pid := None |})
    else rest
  else rest.

Definition spawnCanvas (kind id : string) (configJson : option string)
    (options : option SpawnOptions) : M (Completion SpawnResult) :=
  let env := detectTerminal (process_environment H) in
  let* command := buildCommand kind id configJson options in
  attempt (inITerm2 env) ITerm2 command
    (attempt (inTmux env) Tmux command
    (attempt (inKitty env) Kitty command
    (attempt (inWezTerm env) WezTerm command
    (attempt (inAlacritty env) Alacritty command
    (attempt (inVSCode env) VSCode command
    (attempt (inGhostty env) Ghostty command
    (attempt (inAppleTerminal env) AppleTerminal command
    (ret (Throw unsupported_message))))))))).


(** *** The backends seen through one interface

    The eight adapters are written one by one in the source. The
    definitions below name their parts by backend, so that a property can be
    stated once for every backend. *)

Definition handle_file (b : Backend) : string :=
  match b with
  | Tmux => CANVAS_PANE_FILE
  | ITerm2 => ITERM2_SESSION_FILE
  | AppleTerminal => APPLE_TERMINAL_WINDOW_FILE
  | Kitty => KITTY_WINDOW_FILE
  | WezTerm => WEZTERM_PANE_FILE
  | Alacritty => ALACRITTY_PID_FILE
  | VSCode => VSCODE_PID_FILE
  | Ghostty => GHOSTTY_PID_FILE
  end.

(** Pane, session and Kitty window identifiers are texts; Terminal window
    identifiers and process ids are numbers. *)
Definition numeric_handle (b : Backend) : bool :=
  match b with
  | AppleTerminal | Alacritty | VSCode | Ghostty => true
  | _ => false
  end.

Definition Handle (b : Backend) : Type :=
  if numeric_handle b then number else string.

Definition truthy_handle (b : Backend) : Handle b -> bool :=
  match b with
  | AppleTerminal | Alacritty | VSCode | Ghostty => truthy_num
  | _ => truthy_str
  end.

(** Reading the persisted handle and probing it. Kitty probes only when its
    remote control answers. *)
Definition probe (b : Backend) : M (option (Handle b)) :=
  match b with
  | Tmux => getCanvasPaneId
  | ITerm2 => getITerm2SessionId
  | AppleTerminal => getAppleTerminalWindowId
  | Kitty =>
      let* available := isKittyRemoteControlAvailable in
      if available then getKittyWindowId else ret None
  | WezTerm => getWezTermPaneId
  | Alacritty => getAlacrittyPid
  | VSCode => getVSCodePid
  | Ghostty => getGhosttyPid
  end.


(** The reuse transport; for the backends without one, the termination of
    the old process, which never counts as a reuse. *)
Definition reuse (b : Backend) : Handle b -> string -> M bool :=
  match b with
  | Tmux => reuseExistingPane
  | ITerm2 => reuseITerm2Session
  | AppleTerminal => reuseAppleTerminalWindow
  | Kitty => reuseKittyWindow
  | WezTerm => reuseWezTermPane
  | Alacritty | VSCode | Ghostty =>
      fun pid _ => let* _ := terminate pid in ret false
  end.

Definition create (b : Backend) : string -> M bool :=
  match b with
  | Tmux => createNewPane
  | ITerm2 => createITerm2SplitPane
  | AppleTerminal => createAppleTerminalWindow
  | Kitty => createKittySplitPane
  | WezTerm => createWezTermSplitPane
  | Alacritty => createAlacrittyWindow
  | VSCode => createVSCodeTerminal
  | Ghostty => createGhosttyWindow
  end.

Definition clear (b : Backend) : M unit := Bun_write (handle_file b) "".

(** The lifecycle in the words of the design (read the handle and probe it;
    if live, reuse; on a failed reuse clear the handle; then create), with
    the parts above. [adapter_lifecycle] proves that every adapter of the
    source is this function. *)
Definition lifecycle (b : Backend) (command : string) : M bool :=
  let* existing := probe b in
  let* returned :=
    match existing with
    | Some h =>
        if truthy_handle b h then
          let* reused := reuse b h command in
          if reused then ret true
          else let* _ := clear b in ret false
        else ret false
    | None => ret false
    end in
  if returned then ret true else create b command.

(** The event of the creation primitive of a backend. *)
Definition is_creation (b : Backend) (e : event) : bool :=
  match b, e with
  | Tmux, EvSpawn "tmux" ("split-window" :: _) _ => true
  | ITerm2, EvSpawn "osascript" ["-e"; script] _ =>
      startsWith iterm2_splitScript_head script
  | AppleTerminal, EvSpawn "osascript" ["-e"; script] _ =>
      startsWith terminal_createScript_head script
  | Kitty, EvSpawn "kitty" ("@" :: "launch" :: _) _ => true
  | Kitty, EvSpawnDetached "kitty" _ _ => true
  | WezTerm, EvSpawn "wezterm" ("cli" :: "split-pane" :: _) _ => true
  | Alacritty, EvSpawnDetached "alacritty" _ _ => true
  | VSCode, EvSpawnDetached "bash" _ _ => true
  | Ghostty, EvSpawnDetached "open" _ _ => true
  | Ghostty, EvSpawnDetached "ghostty" _ _ => true
  | _, _ => false
  end.

Definition creations (b : Backend) (evs : list event) : nat :=
  length (List.filter (is_creation b) evs).

(** The adapters [spawnCanvas] has called, with their answers. *)
Definition attempts (evs : list event) : list (Backend * bool) :=
  omap (fun e => match e with EvAttempt b ok => Some (b, ok) | _ => None end) evs.

End Terminal.

Arguments Return {A} a.
Arguments Throw {A} message.

(** ** The socket query helper of the command line front end

    [sendCanvasRequest] builds a promise around [Bun.connect] and a timer.
    The model is the state the handlers share, one function per handler, and
    a run of the handlers over the socket events of a connection, each with
    the time in milliseconds since the call. *)

Module Cli.

Inductive Failure :=
| TimeoutError           (* new Error: Timeout waiting for response *)
| SocketError (e : string).

Definition timeout_message : string := "Timeout waiting for response".

(** The promise: pending, resolved with a value ([None] is [undefined]), or
    rejected. *)
Inductive Promise :=
| Pending
| Resolved (value : option string)
| Rejected (error : Failure).

Record Client := {
  resolved : bool;
  timer : option nat;
  promise : Promise;
  connections : list string;
  written : list string;
  ended : bool;
}.

(** What happens on the connection. [ConnectFailed] is a connection that
    cannot be made: [Bun.connect] rejects the promise it returns, which the
    call does not keep, and the handlers have no [connectError] among them,
    so no handler runs. [Error] is a call of the [error] handler. *)
Inductive SocketEvent :=
| Open
| Data (bytes : string)
| Close
| Error (e : string)
| ConnectFailed (e : string).

(** [resolve] and [reject] settle a promise once. *)
Definition settle (p : Promise) (c : Client) : Client :=
  {| resolved := resolved c; timer := timer c;
     promise := match promise c with Pending => p | settled => settled end;
     connections := connections c; written := written c; ended := ended c |}.

Definition set_resolved (c : Client) : Client :=
  {| resolved := true; timer := timer c; promise := promise c;
     connections := connections c; written := written c; ended := ended c |}.

Definition clearTimeout (c : Client) : Client :=
  {| resolved := resolved c; timer := None; promise := promise c;
     connections := connections c; written := written c; ended := ended c |}.

Definition socket_write (msg : string) (c : Client) : Client :=
  {| resolved := resolved c; timer := timer c; promise := promise c;
     connections := connections c; written := written c ++ [msg];
     ended := ended c |}.

Definition socket_end (c : Client) : Client :=
  {| resolved := resolved c; timer := timer c; promise := promise c;
     connections := connections c; written := written c; ended := true |}.

Section Request.

Variable JSON_parse : string -> option json.
Variables (socketPath requestType expectedResponseType : string).
Variable timeoutMs : option nat.

(** The default of the parameter. *)
Definition timeout_ms : nat := default 2000%nat timeoutMs.

(** The body of the promise: the timer is armed and [Bun.connect] is
    called once. *)
Definition start : Client :=
  {| resolved := false; timer := Some timeout_ms; promise := Pending;
     connections := [socketPath]; written := []; ended := false |}.

(** The callback of the timer. *)
Definition on_timeout (c : Client) : Client :=
  let c := clearTimeout c in
  if resolved c then c
  else settle (Rejected TimeoutError) (set_resolved c).

(** [response.type === expectedResponseType] *)
Definition type_matches (response : json) : bool :=
  match Json.prop response "type" with
  | Some (JStr t) => String.eqb t expectedResponseType
  | _ => false
  end.

(** The [data] handler. A SyntaxError of [JSON.parse] and the TypeError of
    reading a property of [null] leave the handler after the flag is set
    and the timer cleared: the promise stays as it is. *)
Definition on_data (bytes : string) (c : Client) : Client :=
  if resolved c then c
  else
    let c := set_resolved (clearTimeout c) in
    match JSON_parse (trim bytes) with
    | Some JNull => c
    | Some response =>
        let c :=
          if type_matches response
          then settle (Resolved (Json.stringify (Json.prop response "data"))) c
          else settle (Resolved (Json.stringify (Some JNull))) c in
        socket_end c
    | None => c
    end.

Definition on_open (c : Client) : Client :=
  let msg := Json.stringify_json (JObj [("type", JStr requestType)]) in
  socket_write (msg +:+ lf) c.

Definition on_close (c : Client) : Client :=
  if resolved c then c
  else settle (Resolved (Json.stringify (Some JNull))) (clearTimeout (set_resolved c)).

Definition on_error (e : string) (c : Client) : Client :=
  if resolved c then c
  else settle (Rejected (SocketError e)) (clearTimeout (set_resolved c)).

Definition deliver (e : SocketEvent) (c : Client) : Client :=
  match e with
  | Open => on_open c
  | Data bytes => on_data bytes c
  | Close => on_close c
  | Error err => on_error err c
  | ConnectFailed _ => c
  end.

(** The timer fires once the clock has reached its delay, if it is still
    armed. *)
Definition tick (now : nat) (c : Client) : Client :=
  match timer c with
  | Some d => if (d <=? now)%nat then on_timeout c else c
  | None => c
  end.

(** The socket events in order, the timer firing before the first event
    that is not earlier than its delay; after the last event the clock runs
    on until an armed timer fires. *)
Fixpoint run (evs : list (nat * SocketEvent)) (c : Client) : Client :=
  match evs with
  | (t, e) :: rest => run rest (deliver e (tick t c))
  | [] => match timer c with Some d => tick d c | None => c end
  end.

Definition sendCanvasRequest (evs : list (nat * SocketEvent)) : Client :=
  run evs start.

End Request.

End Cli.

(** Sample hosts and inputs, used to run the model. *)
Module Samples.

Definition no_answer : SyncResult := {| status := None; stdout := None |}.

(** A host where nothing can be run and no supported terminal shows. *)
Definition bare : Host := {|
  process_environment := ∅;
  import_meta_dir := "/opt/canvas/src";
  process_platform := "linux";
  JSON_parse := fun _ => None;
  spawnSync_answer := fun _ _ _ _ => no_answer;
  spawn_answer := fun _ _ _ => LaunchError;
  pid_answer := fun _ _ _ => None;
  kill_answer := fun _ _ _ => false;
|}.



(** Alacritty with a live window of an earlier call: every process id
    answers to signals, and a new window gets the process id 5000. *)
Definition alacritty_live : Host := {|
  process_environment := {[ "ALACRITTY_SOCKET" := "/run/user/1000/Alacritty-1.sock" ]};
  import_meta_dir := "/opt/canvas/src";
  process_platform := "linux";
  JSON_parse := fun _ => None;
  spawnSync_answer := fun _ _ _ _ => Samples.no_answer;
  spawn_answer := fun _ _ _ => LaunchError;
  pid_answer := fun _ _ _ => Some 5000;
  kill_answer := fun _ _ _ => true;
|}.

(** tmux where the pane of an earlier call is gone: the query for it fails,
    a split works and names the new pane. *)
Definition tmux_pane_gone : Host := {|
  process_environment := {[ "TMUX" := "/tmp/tmux-1000/default,4242,0" ]};
  import_meta_dir := "/opt/canvas/src";
  process_platform := "linux";
  JSON_parse := fun _ => None;
  spawnSync_answer := fun _ _ _ _ => {| status := Some 1; stdout := Some EmptyString |};
  spawn_answer := fun _ _ _ => Closed (Some 0) ("%7" +:+ lf);
  pid_answer := fun _ _ _ => None;
  kill_answer := fun _ _ _ => false;
|}.

(** tmux where the pane of an earlier call, %3, is alive and takes keys. *)
Definition tmux_pane_live : Host := {|
  process_environment := {[ "TMUX" := "/tmp/tmux-1000/default,4242,0" ]};
  import_meta_dir := "/opt/canvas/src";
  process_platform := "linux";
  JSON_parse := fun _ => None;
  spawnSync_answer := fun _ _ _ _ => {| status := Some 0; stdout := Some ("%3" +:+ lf) |};
  spawn_answer := fun _ _ _ => Closed (Some 0) EmptyString;
  pid_answer := fun _ _ _ => None;
  kill_answer := fun _ _ _ => false;
|}.

(** tmux where the pane %3 answers the query, but keys sent to it are
    refused; a split works and names the new pane. *)
Definition tmux_pane_deaf : Host := {|
  process_environment := {[ "TMUX" := "/tmp/tmux-1000/default,4242,0" ]};
  import_meta_dir := "/opt/canvas/src";
  process_platform := "linux";
  JSON_parse := fun _ => None;
  spawnSync_answer := fun _ _ _ _ => {| status := Some 0; stdout := Some ("%3" +:+ lf) |};
  spawn_answer := fun _ _ args =>
    match args with
    | "send-keys" :: _ => Closed (Some 1) EmptyString
    | _ => Closed (Some 0) ("%7" +:+ lf)
    end;
  pid_answer := fun _ _ _ => None;
  kill_answer := fun _ _ _ => false;
|}.

(** tmux where the pane %3 is alive: the child that sends the interrupt
    exits with 1, the child that types the command exits with 0. *)
Definition tmux_interrupt_refused : Host := {|
  process_environment := {[ "TMUX" := "/tmp/tmux-1000/default,4242,0" ]};
  import_meta_dir := "/opt/canvas/src";
  process_platform := "linux";
  JSON_parse := fun _ => None;
  spawnSync_answer := fun _ _ _ _ => {| status := Some 0; stdout := Some ("%3" +:+ lf) |};
  spawn_answer := fun _ _ args =>
    match args with
    | ["send-keys"; "-t"; _; "C-c"] => Closed (Some 1) EmptyString
    | _ => Closed (Some 0) EmptyString
    end;
  pid_answer := fun _ _ _ => None;
  kill_answer := fun _ _ _ => false;
|}.

End Samples.

(** * Properties *)

(** ** Strings *)

Lemma prefix_app (x s : string) : startsWith x (x +:+ s) = true.
Proof.
  induction x as [|c x IH]; [done |].
  change (String c x +:+ s) with (String c (x +:+ s)). cbn [startsWith].
  by rewrite Ascii.eqb_refl, IH.
Qed.

Lemma append_nil_l (s : string) : EmptyString +:+ s = s.
Proof. reflexivity. Qed.

Lemma append_cons (c : ascii) (a s : string) : String c a +:+ s = String c (a +:+ s).
Proof. reflexivity. Qed.

Lemma includes_prefix (x s : string) : startsWith x s = true -> includes x s = true.
Proof. intros Hp. destruct s; cbn [includes]; by rewrite Hp. Qed.

Lemma includes_app_r (x a b : string) : includes x (a +:+ x +:+ b) = true.
Proof.
  induction a as [|c a IH].
  - rewrite append_nil_l. apply includes_prefix, prefix_app.
  - rewrite append_cons. cbn [includes]. rewrite IH. apply orb_true_r.
Qed.

Lemma app_assoc_s (a b c : string) : (a +:+ b) +:+ c = a +:+ b +:+ c.
Proof. induction a as [|x a IH]; [done | by rewrite !append_cons, IH]. Qed.

Lemma includes_mid (x a b s : string) : s = a +:+ x +:+ b -> includes x s = true.
Proof. intros ->. apply includes_app_r. Qed.

(** ** Environment detection *)

(** The precedence of the design, most preferred first. *)
Definition precedence : list TerminalType :=
  [tmux; iterm2; kitty; wezterm; alacritty; vscode; ghostty; apple_terminal].

(** The presence flag of a terminal product. *)
Definition present (e : TerminalEnvironment) (t : TerminalType) : bool :=
  match t with
  | tmux => inTmux e
  | iterm2 => inITerm2 e
  | apple_terminal => inAppleTerminal e
  | kitty => inKitty e
  | wezterm => inWezTerm e
  | alacritty => inAlacritty e
  | vscode => inVSCode e
  | ghostty => inGhostty e
  | none => false
  end.

(** The classification in the words of the design: the first product in
    the precedence whose flag is set, [none] when no flag is set. *)
Definition classify (e : TerminalEnvironment) : TerminalType :=
  hd none (List.filter (present e) precedence).

(** The variables [detectTerminal] reads. *)
Definition watched : list string :=
  ["TMUX"; "TERM_PROGRAM"; "ITERM_SESSION_ID"; "KITTY_PID"; "ALACRITTY_SOCKET";
   "VSCODE_INJECTION"; "GHOSTTY_RESOURCES_DIR"].

(** What shows a product in the environment: a variable of its own that is
    set to a text that is not empty, or its name in [TERM_PROGRAM]. *)
Definition marker (t : TerminalType) : option string :=
  match t with
  | tmux => Some "TMUX"
  | iterm2 => Some "ITERM_SESSION_ID"
  | kitty => Some "KITTY_PID"
  | alacritty => Some "ALACRITTY_SOCKET"
  | vscode => Some "VSCODE_INJECTION"
  | ghostty => Some "GHOSTTY_RESOURCES_DIR"
  | apple_terminal | wezterm | none => None
  end.

Definition program (t : TerminalType) : option string :=
  match t with
  | iterm2 => Some "iTerm.app"
  | apple_terminal => Some "Apple_Terminal"
  | kitty => Some "kitty"
  | wezterm => Some "WezTerm"
  | alacritty => Some "Alacritty"
  | vscode => Some "vscode"
  | ghostty => Some "ghostty"
  | tmux | none => None
  end.

Definition shown (env : process_env) (t : TerminalType) : bool :=
  from_option (fun v => truthy (env !! v)) false (marker t)
  || from_option (str_is (env !! "TERM_PROGRAM")) false (program t).

(** An environment for a wanted combination of flags: the variable of
    every wanted product that has one, and the name of WezTerm or of Apple
    Terminal in [TERM_PROGRAM] when one of the two is wanted. *)
Definition environment_for (wanted : TerminalType -> bool) : process_env :=
  let set (t : TerminalType) (env : process_env) : process_env :=
    match marker t with
    | Some v => if wanted t then <[v := "1"]> env else env
    | None => env
    end in
  let named : process_env :=
    if wanted wezterm then {[ "TERM_PROGRAM" := "WezTerm" ]}
    else if wanted apple_terminal then {[ "TERM_PROGRAM" := "Apple_Terminal" ]}
    else ∅ in
  foldr set named precedence.

Ltac split_ifs :=
  repeat match goal with
         | |- context [if ?b then _ else _] => destruct b eqn:?
         end.

Lemma classification_facts (env : process_env) :
  terminalType (detectTerminal env) = classify (detectTerminal env)
  /\ (terminalType (detectTerminal env) = none <->
      forall t, present (detectTerminal env) t = false).
Proof.
  unfold detectTerminal, classify.
  generalize (truthy (env !! "TMUX")) as b1.
  generalize (str_is (env !! "TERM_PROGRAM") "iTerm.app"
              || truthy (env !! "ITERM_SESSION_ID")) as b2.
  generalize (str_is (env !! "TERM_PROGRAM") "Apple_Terminal") as b3.
  generalize (str_is (env !! "TERM_PROGRAM") "kitty" || truthy (env !! "KITTY_PID")) as b4.
  generalize (str_is (env !! "TERM_PROGRAM") "WezTerm") as b5.
  generalize (str_is (env !! "TERM_PROGRAM") "Alacritty"
              || truthy (env !! "ALACRITTY_SOCKET")) as b6.
  generalize (str_is (env !! "TERM_PROGRAM") "vscode"
              || truthy (env !! "VSCODE_INJECTION")) as b7.
  generalize (str_is (env !! "TERM_PROGRAM") "ghostty"
              || truthy (env !! "GHOSTTY_RESOURCES_DIR")) as b8.
  intros b8 b7 b6 b5 b4 b3 b2 b1.
  split.
  - destruct b1, b2, b4, b5, b6, b7, b8, b3; reflexivity.
  - split.
    + intros Hn t.
      destruct b1, b2, b4, b5, b6, b7, b8, b3; try discriminate Hn;
        destruct t; reflexivity.
    + intros Hall.
      destruct b1, b2, b4, b5, b6, b7, b8, b3; try reflexivity;
        first [ discriminate (Hall tmux) | discriminate (Hall iterm2)
              | discriminate (Hall kitty) | discriminate (Hall wezterm)
              | discriminate (Hall alacritty) | discriminate (Hall vscode)
              | discriminate (Hall ghostty) | discriminate (Hall apple_terminal) ].
Qed.

(** The classification depends on the watched variables only. *)
Lemma detectTerminal_watched (env env' : process_env) :
  Forall (fun v => env !! v = env' !! v) watched ->
  detectTerminal env = detectTerminal env'.
Proof.
  intros Hw. unfold watched in Hw. rewrite !Forall_cons in Hw.
  destruct Hw as (H1 & H2 & H3 & H4 & H5 & H6 & H7 & _).
  unfold detectTerminal. by rewrite H1, H2, H3, H4, H5, H6, H7.
Qed.

Lemma flags_shown (env : process_env) (t : TerminalType) :
  present (detectTerminal env) t = shown env t.
Proof.
  unfold shown, detectTerminal.
  match goal with |- context [let '(_, _) := ?x in _] => destruct x end.
  destruct t; cbn [present marker program from_option inTmux inITerm2
                     inAppleTerminal inKitty inWezTerm inAlacritty inVSCode inGhostty];
    rewrite ?orb_false_r; first [reflexivity | apply orb_comm].
Qed.

Lemma flags_realised (wanted : TerminalType -> bool) :
  wanted none = false -> wanted wezterm && wanted apple_terminal = false ->
  forall t, present (detectTerminal (environment_for wanted)) t = wanted t.
Proof.
  intros Hnone Hboth t. unfold environment_for, precedence. cbn [foldr marker].
  destruct t; rewrite ?Hnone;
    destruct (wanted tmux), (wanted iterm2), (wanted kitty), (wanted wezterm),
      (wanted alacritty), (wanted vscode), (wanted ghostty),
      (wanted apple_terminal); try discriminate Hboth; reflexivity.
Qed.

(** C2. [detectTerminal] is a function of the environment, and of the
    seven variables it reads only: two environments that agree on them give
    the same result. Each presence flag it returns is raised exactly when
    the environment shows the product. The classification it returns is one
    of the nine, the one the precedence tmux, iTerm2, Kitty, WezTerm,
    Alacritty, VS Code, Ghostty, Apple Terminal picks from the presence
    flags: the first product whose flag is set, and [none] exactly when no
    flag is set. And every combination of flags has an environment that
    raises exactly these, save the ones with both WezTerm and Apple
    Terminal, which only [TERM_PROGRAM] shows. *)
Theorem detectTerminal_precedence (env : process_env) :
  (forall t, present (detectTerminal env) t = shown env t)
  /\ terminalType (detectTerminal env) = hd none (List.filter (shown env) precedence)
  /\ terminalType (detectTerminal env) = classify (detectTerminal env)
  /\ (terminalType (detectTerminal env) = none <->
      forall t, present (detectTerminal env) t = false)
  /\ (forall env',
        Forall (fun v => env !! v = env' !! v) watched ->
        detectTerminal env = detectTerminal env')
  /\ (forall wanted : TerminalType -> bool,
        wanted none = false -> wanted wezterm && wanted apple_terminal = false ->
        forall t, present (detectTerminal (environment_for wanted)) t = wanted t).
Proof.
  destruct (classification_facts env) as [Hc Hn].
  split; [apply flags_shown |]. split.
  { rewrite Hc. unfold classify, precedence. cbn [List.filter].
    by rewrite !flags_shown. }
  split; [exact Hc |]. split; [exact Hn |].
  split; [intros env'; apply detectTerminal_watched | apply flags_realised].
Qed.

(** A shell inside tmux inside iTerm2, started from a terminal of VS Code:
    three flags are raised, and tmux comes first. *)
Lemma detectTerminal_precedence_witness :
  let env : process_env :=
    {[ "TMUX" := "/tmp/tmux-501/default,4242,0"; "ITERM_SESSION_ID" := "w0t0p0:1";
       "TERM_PROGRAM" := "vscode" ]} in
  List.filter (present (detectTerminal env)) precedence = [tmux; iterm2; vscode]
  /\ terminalType (detectTerminal env) = tmux.
Proof.
  intros env.
  destruct (detectTerminal_precedence env) as (Hflags & Hclass & _).
  split; [| rewrite Hclass; reflexivity].
  unfold precedence. cbn [List.filter]. rewrite !Hflags. reflexivity.
Defined.

(** ** Reasoning about runs *)

Lemma bind_run {A B} (m : M A) (k : A -> M B) (w : World) :
  bind m k w = k (m w).1 (m w).2.
Proof. unfold bind. by destruct (m w). Qed.

(** [emits P m]: whatever the world, [m] only adds events to the log, and
    all of them satisfy [P]. *)
Definition emits {A} (P : event -> Prop) (m : M A) : Prop :=
  forall w, exists evs, log (m w).2 = evs ++ log w /\ Forall P evs.

Section Emits.

Variable H : Host.
Variable P : event -> Prop.

Lemma emits_ret {A} (a : A) : emits P (ret a).
Proof. intros w. exists []. by split. Qed.

Lemma emits_bind {A B} (m : M A) (k : A -> M B) :
  emits P m -> (forall a, emits P (k a)) -> emits P (bind m k).
Proof.
  intros Hm Hk w. rewrite bind_run.
  destruct (Hm w) as (e1 & E1 & F1).
  destruct (Hk (m w).1 (m w).2) as (e2 & E2 & F2).
  exists (e2 ++ e1). split.
  - by rewrite E2, E1, app_assoc.
  - by apply Forall_app.
Qed.

Lemma emits_event (e : event) : P e -> emits P (emit e).
Proof. intros He w. exists [e]. split; [done | by constructor]. Qed.

Lemma emits_when (b : bool) (m : M unit) : emits P m -> emits P (when b m).
Proof. destruct b; [done | intros _; apply emits_ret]. Qed.

Lemma emits_Bun_write (path content : string) :
  P (EvWrite path content) -> emits P (Bun_write path content).
Proof. intros He w. exists [EvWrite path content]. split; [done | by constructor]. Qed.

Lemma emits_Bun_file (path : string) : emits P (Bun_file path).
Proof. intros w. exists []. by split. Qed.

Lemma emits_spawnSync cmd args timeout :
  (forall r, P (EvSpawnSync cmd args timeout r)) -> emits P (spawnSync H cmd args timeout).
Proof. intros He w. eexists [_]. split; [done | by constructor]. Qed.

Lemma emits_spawn cmd args :
  (forall r, P (EvSpawn cmd args r)) -> emits P (spawn H cmd args).
Proof. intros He w. eexists [_]. split; [done | by constructor]. Qed.

Lemma emits_spawn_detached cmd args :
  (forall p, P (EvSpawnDetached cmd args p)) -> emits P (spawn_detached H cmd args).
Proof. intros He w. eexists [_]. split; [done | by constructor]. Qed.

Lemma emits_process_kill pid sig :
  (forall ok, P (EvKill pid sig ok)) -> emits P (process_kill H pid sig).
Proof. intros He w. eexists [_]. split; [done | by constructor]. Qed.

End Emits.

(** One step of a proof of [emits]: a bind, a primitive, or a case
    distinction of the program. The conditions on single events are left as
    goals. *)
Ltac emits_step :=
  lazymatch goal with
  | |- emits _ (bind _ _) => apply emits_bind; [| intros ?]
  | |- emits _ (ret _) => apply emits_ret
  | |- emits _ (when _ _) => apply emits_when
  | |- emits _ (Bun_write _ _) => apply emits_Bun_write
  | |- emits _ (Bun_file _) => apply emits_Bun_file
  | |- emits _ (spawnSync _ _ _ _) => apply emits_spawnSync; intros ?
  | |- emits _ (spawn _ _ _) => apply emits_spawn; intros ?
  | |- emits _ (spawn_detached _ _ _) => apply emits_spawn_detached; intros ?
  | |- emits _ (process_kill _ _ _) => apply emits_process_kill; intros ?
  | |- emits _ (sleep _) => apply emits_event
  | |- emits _ (defer _ _) => apply emits_event
  | |- emits _ (console_error _) => apply emits_event
  | |- emits _ (emit _) => apply emits_event
  | |- emits _ (match ?x with _ => _ end) => destruct x
  | |- emits _ (if ?x then _ else _) => destruct x
  end.

Definition is_attempt (e : event) : bool :=
  match e with EvAttempt _ _ => true | _ => false end.

(** The parts of the adapters, unfolded by the proofs about all of them. *)
Ltac unfold_adapters :=
  unfold adapter, lifecycle, probe, reuse, create, clear,
    spawnTmux, spawnITerm2, spawnAppleTerminal, spawnWezTerm, spawnKitty,
    spawnAlacritty, spawnVSCode, spawnGhostty, or_create,
    getCanvasPaneId, getITerm2SessionId, getAppleTerminalWindowId,
    getWezTermPaneId, getKittyWindowId, getAlacrittyPid, getVSCodePid,
    getGhosttyPid,
    reuseExistingPane, reuseITerm2Session, reuseAppleTerminalWindow,
    reuseWezTermPane, reuseKittyWindow, terminate,
    createNewPane, createITerm2SplitPane, createAppleTerminalWindow,
    createWezTermSplitPane, createKittySplitPane, createAlacrittyWindow,
    createVSCodeTerminal, createGhosttyWindow,
    saveCanvasPaneId, saveITerm2SessionId, saveAppleTerminalWindowId,
    saveWezTermPaneId, saveKittyWindowId, saveAlacrittyPid, saveVSCodePid,
    saveGhosttyPid, isKittyRemoteControlAvailable.


Lemma buildCommand_no_attempt (H : Host) kind id configJson options :
  emits (fun e => is_attempt e = false) (buildCommand H kind id configJson options).
Proof. unfold buildCommand. repeat emits_step; reflexivity. Qed.

Lemma attempts_quiet (evs : list event) :
  Forall (fun e => is_attempt e = false) evs -> attempts evs = [].
Proof.
  induction 1 as [|e evs He _ IH]; [done |].
  destruct e; try discriminate He; exact IH.
Qed.

Lemma attempts_app (l1 l2 : list event) :
  attempts (l1 ++ l2) = attempts l1 ++ attempts l2.
Proof. apply omap_app. Qed.

Lemma attempts_rev_quiet (evs : list event) :
  Forall (fun e => is_attempt e = false) evs -> attempts (rev evs) = [].
Proof. intros Hq. apply attempts_quiet, Forall_rev, Hq. Qed.

(** ** The orchestrator *)

(** The order in which [spawnCanvas] goes through the backends. *)
Definition spawn_order : list Backend :=
  [ITerm2; Tmux; Kitty; WezTerm; Alacritty; VSCode; Ghostty; AppleTerminal].

Definition flag (e : TerminalEnvironment) (b : Backend) : bool :=
  match b with
  | ITerm2 => inITerm2 e
  | Tmux => inTmux e
  | Kitty => inKitty e
  | WezTerm => inWezTerm e
  | Alacritty => inAlacritty e
  | VSCode => inVSCode e
  | Ghostty => inGhostty e
  | AppleTerminal => inAppleTerminal e
  end.












(** The products the error message has to name. *)
Definition supported_products : list string :=
  ["iTerm2"; "tmux"; "Kitty"; "WezTerm"; "Alacritty"; "VS Code"; "Ghostty";
   "Apple Terminal"].

(** C7. When the classification is [none], [spawnCanvas] calls no adapter
    and throws the error for an unsupported terminal, and the message of
    that error names each of the eight supported products. *)
Theorem spawnCanvas_unsupported (H : Host) (kind id : string)
    (configJson : option string) (options : option SpawnOptions) (w : World) :
  terminalType (detectTerminal (process_environment H)) = none ->
  let r := spawnCanvas H kind id configJson options w in
  r.1 = Throw unsupported_message
  /\ Forall (fun product => includes product unsupported_message = true)
       supported_products
  /\ attempts (trace r.2) = attempts (trace w).
Proof.
  intros Hnone r.
  pose proof (proj1 (proj2 (classification_facts _)) Hnone) as Hall.
  clear Hnone. rename Hall into Hnone.
  pose proof (Hnone tmux) as F1. pose proof (Hnone iterm2) as F2.
  pose proof (Hnone kitty) as F3. pose proof (Hnone wezterm) as F4.
  pose proof (Hnone alacritty) as F5. pose proof (Hnone vscode) as F6.
  pose proof (Hnone ghostty) as F7. pose proof (Hnone apple_terminal) as F8.
  simpl in F1, F2, F3, F4, F5, F6, F7, F8.
  destruct (buildCommand_no_attempt H kind id configJson options w) as (e0 & E0 & Q0).
  assert (Hr : r = (Throw unsupported_message,
                    (buildCommand H kind id configJson options w).2)).
  { unfold r, spawnCanvas. rewrite bind_run.
    rewrite F1, F2, F3, F4, F5, F6, F7, F8. reflexivity. }
  rewrite Hr. simpl. split; [done |]. split.
  - unfold supported_products. repeat constructor.
  - unfold trace. rewrite E0, rev_app_distr, attempts_app.
    by rewrite (attempts_rev_quiet _ Q0), app_nil_r.
Qed.

Lemma spawnCanvas_unsupported_witness :
  let r := spawnCanvas Samples.bare "calendar" "demo-1" None None (init ∅) in
  r.1 = Throw unsupported_message
  /\ Forall (fun product => includes product unsupported_message = true)
       supported_products
  /\ attempts (trace r.2) = attempts (trace (init ∅)).
Proof.
  apply (spawnCanvas_unsupported Samples.bare "calendar" "demo-1" None None (init ∅)).
  vm_compute. reflexivity.
Defined.

(** ** The command line *)

(** An optional text that was supplied: present and not the empty text (an
    empty text is falsy, and the code treats it as not given). *)
Definition supplied (o : option string) : option string :=
  match o with
  | Some s => if truthy_str s then Some s else None
  | None => None
  end.

(** C5. With no socket path given, the command is the run script with
    [show <kind> --id <id>], then the config fragment when a config was
    supplied, then [--socket /tmp/canvas-<id>.sock], then [--scenario <name>]
    exactly when a scenario was supplied. A supplied config is written as it
    is to [/tmp/canvas-config-<id>.json], and the command reads that file
    back into [--config]: the text of the config is no part of the command.
    Without a config nothing is written. *)
Theorem buildCommand_shape (H : Host) (kind id : string)
    (configJson : option string) (options : option SpawnOptions) (w : World) :
  supplied (options ≫= socketPath) = None ->
  let r := buildCommand H kind id configJson options w in
  let config_part :=
    match supplied configJson with
    | Some _ => " --config " +:+ dq +:+ "$(cat /tmp/canvas-config-" +:+ id +:+ ".json)" +:+ dq
    | None => EmptyString
    end in
  let scenario_part :=
    match supplied (options ≫= scenario) with
    | Some name => " --scenario " +:+ name
    | None => EmptyString
    end in
  r.1 = (runScript H +:+ " show " +:+ kind +:+ " --id " +:+ id)
          +:+ config_part +:+ " --socket /tmp/canvas-" +:+ id +:+ ".sock"
          +:+ scenario_part
  /\ includes (" --id " +:+ id) r.1 = true
  /\ includes (" --socket /tmp/canvas-" +:+ id +:+ ".sock") r.1 = true
  /\ match supplied configJson with
     | Some json =>
         files r.2 = <[ "/tmp/canvas-config-" +:+ id +:+ ".json" := json ]> (files w)
         /\ trace r.2 = trace w ++ [EvWrite ("/tmp/canvas-config-" +:+ id +:+ ".json") json]
     | None => r.2 = w
     end.
Proof.
  intros Hsock r config_part scenario_part.
  assert (Hor : or_else (options ≫= socketPath) (default_socketPath id)
                = default_socketPath id).
  { unfold supplied in Hsock. unfold or_else.
    destruct (options ≫= socketPath) as [s|]; [| done].
    by destruct (truthy_str s). }
  assert (Hcmd : r.1 = (runScript H +:+ " show " +:+ kind +:+ " --id " +:+ id)
          +:+ config_part +:+ " --socket /tmp/canvas-" +:+ id +:+ ".sock"
          +:+ scenario_part).
  { unfold r, buildCommand, config_part, scenario_part, supplied.
    rewrite Hor. unfold default_socketPath, configFile.
    destruct configJson as [json|]; [destruct (truthy_str json) |];
      (destruct (options ≫= scenario) as [name|]; [destruct (truthy_str name) |]);
      cbn [bind ret Bun_write fst snd];
      rewrite ?app_assoc_s; reflexivity. }
  split; [exact Hcmd |]. split; [| split].
  - apply (includes_mid _ (runScript H +:+ " show " +:+ kind)
             (config_part +:+ " --socket /tmp/canvas-" +:+ id +:+ ".sock"
                +:+ scenario_part)).
    rewrite Hcmd, !app_assoc_s. reflexivity.
  - apply (includes_mid _
             ((runScript H +:+ " show " +:+ kind +:+ " --id " +:+ id) +:+ config_part)
             scenario_part).
    rewrite Hcmd, !app_assoc_s. reflexivity.
  - unfold r, buildCommand, supplied, configFile, trace.
    destruct configJson as [json|]; [destruct (truthy_str json) |];
      cbn [bind ret Bun_write fst snd files log]; done.
Qed.

(** The example of the design: kind calendar, id demo-1, a config with one
    member. *)
Definition sample_config : string := "{" +:+ dq +:+ "x" +:+ dq +:+ ":1}".

Definition sample_options : option SpawnOptions :=
  Some {| socketPath := None; scenario := Some "display" |}.

Lemma buildCommand_shape_witness :
  supplied (sample_options ≫= socketPath) = None
  /\ (let r := buildCommand Samples.bare "calendar" "demo-1" (Some sample_config)
                 sample_options (init ∅) in
      r.1 = "/opt/canvas/run-canvas.sh show calendar --id demo-1 --config "
              +:+ dq +:+ "$(cat /tmp/canvas-config-demo-1.json)" +:+ dq
              +:+ " --socket /tmp/canvas-demo-1.sock --scenario display"
      /\ files r.2 !! "/tmp/canvas-config-demo-1.json" = Some sample_config).
Proof.
  split; [reflexivity |].
  destruct (buildCommand_shape Samples.bare "calendar" "demo-1" (Some sample_config)
              sample_options (init ∅) eq_refl) as (Hcmd & _ & _ & Hfiles & _).
  split.
  - rewrite Hcmd. reflexivity.
  - rewrite Hfiles. reflexivity.
Defined.

(** ** The socket query helper *)

Module CliFacts.
Import Cli.

Section Request.

Variable JSON_parse : string -> option json.
Variables (socketPath requestType expectedResponseType : string).
Variable timeoutMs : option nat.

Abbreviation deliver := (deliver JSON_parse requestType expectedResponseType).
Abbreviation run := (run JSON_parse requestType expectedResponseType).
Abbreviation timeout := (timeout_ms timeoutMs).

(** A client that nothing has settled yet: the flag is down, the timer is
    armed with the delay of the call, the promise is pending. *)
Definition waiting (c : Client) : Prop :=
  resolved c = false /\ timer c = Some timeout /\ promise c = Pending
  /\ connections c = [socketPath].

(** Only [open] events, all before the timer expires. *)
Definition only_opens (evs : list (nat * SocketEvent)) : Prop :=
  Forall (fun te => (te.1 < timeout)%nat /\ te.2 = Open) evs.

Lemma start_waiting : waiting (start socketPath timeoutMs).
Proof. by repeat split. Qed.

Lemma tick_early (t : nat) (c : Client) :
  waiting c -> (t < timeout)%nat -> tick t c = c.
Proof.
  intros (_ & Ht & _) Hlt. unfold tick. rewrite Ht.
  destruct (Nat.leb_spec timeout t); [lia | done].
Qed.

Lemma tick_resolved (t : nat) (c : Client) :
  resolved c = true ->
  resolved (tick t c) = true /\ promise (tick t c) = promise c
  /\ connections (tick t c) = connections c.
Proof.
  intros Hr. unfold tick, on_timeout.
  destruct (timer c) as [d|]; [| done].
  destruct (d <=? t)%nat; [| done]. simpl. by rewrite Hr.
Qed.

Lemma deliver_resolved (e : SocketEvent) (c : Client) :
  resolved c = true ->
  resolved (deliver e c) = true /\ promise (deliver e c) = promise c
  /\ connections (deliver e c) = connections c.
Proof.
  intros Hr. destruct e; simpl; unfold on_data, on_close, on_error;
    rewrite ?Hr; done.
Qed.

(** Once the flag is up, no event and no timer changes the promise. *)
Lemma run_resolved (evs : list (nat * SocketEvent)) (c : Client) :
  resolved c = true ->
  promise (run evs c) = promise c /\ connections (run evs c) = connections c.
Proof.
  revert c. induction evs as [|[t e] evs IH]; intros c Hr.
  - simpl. destruct (timer c) as [d|] eqn:Ht; [| done].
    destruct (tick_resolved d c Hr) as (_ & Hp & Hc). by rewrite Hp, Hc.
  - simpl.
    destruct (tick_resolved t c Hr) as (Hr1 & Hp1 & Hc1).
    destruct (deliver_resolved e _ Hr1) as (Hr2 & Hp2 & Hc2).
    destruct (IH _ Hr2) as (Hp & Hc).
    by rewrite Hp, Hc, Hp2, Hc2, Hp1, Hc1.
Qed.

Lemma open_waiting (c : Client) : waiting c -> waiting (deliver Open c).
Proof. intros (? & ? & ? & ?). by repeat split. Qed.

(** Opens before the expiry leave the client waiting. *)
Lemma run_opens (pre rest : list (nat * SocketEvent)) (c : Client) :
  only_opens pre -> waiting c ->
  exists c', waiting c' /\ run (pre ++ rest) c = run rest c'.
Proof.
  intros Hpre. revert c.
  induction Hpre as [|[t e] pre [Ht He] _ IH]; intros c Hw.
  - by exists c.
  - simpl in Ht, He. subst e. simpl.
    rewrite (tick_early t c Hw Ht).
    apply IH, open_waiting, Hw.
Qed.

Lemma timeout_fires (t : nat) (c : Client) :
  waiting c -> (timeout <= t)%nat ->
  resolved (tick t c) = true /\ promise (tick t c) = Rejected TimeoutError
  /\ connections (tick t c) = [socketPath].
Proof.
  intros (Hr & Ht & Hp & Hc) Hle. unfold tick. rewrite Ht.
  destruct (Nat.leb_spec timeout t); [| lia].
  unfold on_timeout. simpl. rewrite Hr.
  unfold settle, set_resolved, clearTimeout. simpl. by rewrite Hp.
Qed.

(** With nothing but opens before the expiry, the call is rejected with
    the timeout. *)
Lemma run_times_out (evs : list (nat * SocketEvent)) (c : Client) :
  Forall (fun te => (te.1 < timeout)%nat -> te.2 = Open) evs -> waiting c ->
  promise (run evs c) = Rejected TimeoutError
  /\ connections (run evs c) = [socketPath].
Proof.
  intros Hevs. revert c.
  induction Hevs as [|[t e] evs He _ IH]; intros c Hw.
  - simpl. destruct Hw as (Hr & Ht & Hp & Hc). rewrite Ht.
    apply (timeout_fires timeout c); [by repeat split | lia].
  - simpl in He. simpl.
    destruct (Nat.lt_ge_cases t timeout) as [Hlt | Hge].
    + rewrite (He Hlt), (tick_early t c Hw Hlt).
      apply IH, open_waiting, Hw.
    + destruct (timeout_fires t c Hw Hge) as (Hr1 & Hp1 & Hc1).
      destruct (deliver_resolved e _ Hr1) as (Hr2 & Hp2 & Hc2).
      destruct (run_resolved evs _ Hr2) as (Hp & Hc).
      by rewrite Hp, Hc, Hp2, Hc2.
Qed.

(** The first event that is not an open decides, when it comes before the
    expiry and raises the flag. *)
Lemma run_decided (pre post : list (nat * SocketEvent)) (t : nat) (e : SocketEvent) :
  only_opens pre -> (t < timeout)%nat ->
  (forall c, waiting c -> resolved (deliver e c) = true) ->
  exists c, waiting c
    /\ promise (sendCanvasRequest JSON_parse socketPath requestType
                  expectedResponseType timeoutMs (pre ++ (t, e) :: post))
       = promise (deliver e c)
    /\ connections (sendCanvasRequest JSON_parse socketPath requestType
                      expectedResponseType timeoutMs (pre ++ (t, e) :: post))
       = connections (deliver e c).
Proof.
  intros Hpre Ht Hflag. unfold sendCanvasRequest.
  destruct (run_opens pre ((t, e) :: post) _ Hpre start_waiting) as (c & Hw & ->).
  exists c. split; [exact Hw |]. simpl.
  rewrite (tick_early t c Hw Ht).
  apply run_resolved, Hflag, Hw.
Qed.

(** C8, as the code has it. The first [data] event is taken for the whole
    reply. When it comes first (after opens only, before the timer expires)
    and its text parses to a value other than [null], it settles the call:
    when the [type] of the value is the expected reply type the call
    resolves with the serialized [data] of the reply, and with any other
    [type], or none, it resolves with the serialized [null]; it is never
    rejected. *)
Theorem reply_resolves (pre post : list (nat * SocketEvent)) (t : nat)
    (bytes : string) (response : json) :
  only_opens pre -> (t < timeout)%nat ->
  JSON_parse (trim bytes) = Some response -> response <> JNull ->
  let c := sendCanvasRequest JSON_parse socketPath requestType
             expectedResponseType timeoutMs (pre ++ (t, Data bytes) :: post) in
  (Json.prop response "type" = Some (JStr expectedResponseType) ->
     promise c = Resolved (Json.stringify (Json.prop response "data")))
  /\ (Json.prop response "type" <> Some (JStr expectedResponseType) ->
     promise c = Resolved (Some "null")).
Proof.
  intros Hpre Ht Hparse Hnull c.
  destruct (run_decided pre post t (Data bytes) Hpre Ht) as (c0 & Hw & Hp & _).
  { intros c1 (Hr & _). simpl. unfold on_data. rewrite Hr, Hparse.
    destruct response; try done;
      by match goal with |- context [if ?b then _ else _] => destruct b end. }
  fold c in Hp. rewrite Hp. destruct Hw as (Hr & _ & Hpend & _).
  simpl. unfold on_data. rewrite Hr, Hparse.
  assert (Hset : forall p, promise (socket_end (settle p (set_resolved (clearTimeout c0)))) = p).
  { intros p. simpl. by rewrite Hpend. }
  unfold type_matches. split.
  - intros Hty. rewrite Hty, String.eqb_refl.
    destruct response; try done; apply Hset.
  - intros Hty.
    assert (Hno : match Json.prop response "type" with
                  | Some (JStr ty) => String.eqb ty expectedResponseType
                  | _ => false
                  end = false).
    { destruct (Json.prop response "type") as [[| | |ty| |]|]; try done.
      destruct (String.eqb_spec ty expectedResponseType) as [->|]; [| done].
      by destruct Hty. }
    rewrite Hno. destruct response; try done; apply Hset.
Qed.

(** The call of the error handler, when it is the first thing after opens
    and before the timer expires, rejects the call with the error it is
    given. *)
Lemma error_handler_rejects (pre post : list (nat * SocketEvent)) (t : nat) (e : string) :
  only_opens pre -> (t < timeout)%nat ->
  let c := sendCanvasRequest JSON_parse socketPath requestType
             expectedResponseType timeoutMs (pre ++ (t, Error e) :: post) in
  promise c = Rejected (SocketError e) /\ connections c = [socketPath].
Proof.
  intros Hpre Ht c.
  destruct (run_decided pre post t (Error e) Hpre Ht) as (c0 & Hw & Hp & Hc).
  { intros c1 (Hr & _). simpl. unfold on_error. by rewrite Hr. }
  fold c in Hp, Hc. rewrite Hp, Hc. destruct Hw as (Hr & _ & Hpend & Hconn).
  simpl. unfold on_error. rewrite Hr. simpl. by rewrite Hpend.
Qed.





(** C10. When the socket closes first (after opens only, before the timer
    expires, with no reply and no error before it), the call resolves with
    the serialized [null]; nothing that comes later changes that. *)
Theorem close_resolves_null (pre post : list (nat * SocketEvent)) (t : nat) :
  only_opens pre -> (t < timeout)%nat ->
  promise (sendCanvasRequest JSON_parse socketPath requestType
             expectedResponseType timeoutMs (pre ++ (t, Close) :: post))
  = Resolved (Some "null").
Proof.
  intros Hpre Ht.
  destruct (run_decided pre post t Close Hpre Ht) as (c0 & Hw & Hp & _).
  { intros c1 (Hr & _). simpl. unfold on_close. by rewrite Hr. }
  rewrite Hp. destruct Hw as (Hr & _ & Hpend & _).
  simpl. unfold on_close. rewrite Hr. simpl. by rewrite Hpend.
Qed.

End Request.

(** The reply of the example of the design, and a parser that knows it. *)
Definition sample_reply : json :=
  JObj [("type", JStr "selection"); ("data", JArr [JStr "a"])].

Definition sample_parse (s : string) : option json :=
  if String.eqb s (Json.stringify_json sample_reply) then Some sample_reply
  else None.

Definition sample_socket : string := "/tmp/canvas-demo-1.sock".

Lemma reply_resolves_witness :
  let bytes := Json.stringify_json sample_reply +:+ lf in
  let c := sendCanvasRequest sample_parse sample_socket "getSelection" "selection"
             None ([(1%nat, Open)] ++ (12%nat, Data bytes) :: [(13%nat, Close)]) in
  promise c = Resolved (Some ("[" +:+ dq +:+ "a" +:+ dq +:+ "]"))
  /\ written c = ["{" +:+ dq +:+ "type" +:+ dq +:+ ":" +:+ dq +:+ "getSelection" +:+ dq +:+ "}" +:+ lf].
Proof.
  intros bytes c. split; [| reflexivity].
  assert (Hopens : only_opens None [(1%nat, Open)]).
  { repeat constructor. }
  assert (Ht : (12 < timeout_ms None)%nat) by (vm_compute; lia).
  assert (Hparse : sample_parse (trim bytes) = Some sample_reply) by reflexivity.
  assert (Hnn : sample_reply <> JNull) by discriminate.
  exact (proj1 (reply_resolves sample_parse sample_socket "getSelection" "selection"
                  None [(1%nat, Open)] [(13%nat, Close)] 12 bytes sample_reply
                  Hopens Ht Hparse Hnn) eq_refl).
Defined.

(** C8, as stated, fails. The reply line of the example arrives in two
    pieces, as a stream may deliver it. The line as a whole parses to a
    reply of the expected type, but the call does not resolve with its
    data: the first piece alone is parsed, and the promise stays pending. *)
Lemma split_reply_stays_pending :
  let line := Json.stringify_json sample_reply +:+ lf in
  let first := String.substring 0 14 line in
  let second := String.substring 14 (String.length line - 14) line in
  let c := sendCanvasRequest sample_parse sample_socket "getSelection" "selection"
             None [(1%nat, Open); (12%nat, Data first); (13%nat, Data second)] in
  first +:+ second = line
  /\ sample_parse (trim line) = Some sample_reply
  /\ Json.prop sample_reply "type" = Some (JStr "selection")
  /\ promise c = Pending.
Proof. vm_compute. done. Qed.



Lemma close_resolves_null_witness :
  promise (sendCanvasRequest sample_parse sample_socket "getSelection" "selection"
             None ([(1%nat, Open)] ++ (40%nat, Close) :: [(41%nat, Data "late")]))
  = Resolved (Some "null").
Proof.
  apply close_resolves_null.
  - repeat constructor.
  - vm_compute. lia.
Defined.

End CliFacts.

(** ** The lifecycle of the backends *)

(** Every adapter of the source is the lifecycle of the design, with the
    parts of its backend. *)
Lemma adapter_lifecycle (H : Host) (b : Backend) (command : string) (w : World) :
  adapter H b command w = lifecycle H b command w.
Proof.
  destruct b; try reflexivity.
  - unfold adapter, lifecycle, probe, spawnKitty, or_create, bind.
    destruct (isKittyRemoteControlAvailable H w) as [[|] w0]; [| reflexivity].
    by destruct (getKittyWindowId H w0).
  - unfold adapter, lifecycle, probe, reuse, clear, spawnAlacritty, truthy_handle,
      when, bind.
    destruct (getAlacrittyPid H w) as [[pid|] w0]; [| reflexivity].
    destruct (truthy_num pid); [| reflexivity].
    by destruct (terminate H pid w0).
  - unfold adapter, lifecycle, probe, reuse, clear, spawnVSCode, truthy_handle,
      when, bind.
    destruct (getVSCodePid H w) as [[pid|] w0]; [| reflexivity].
    destruct (truthy_num pid); [| reflexivity].
    by destruct (terminate H pid w0).
  - unfold adapter, lifecycle, probe, reuse, clear, spawnGhostty, truthy_handle,
      when, bind.
    destruct (getGhosttyPid H w) as [[pid|] w0]; [| reflexivity].
    destruct (truthy_num pid); [| reflexivity].
    by destruct (terminate H pid w0).
Qed.

Lemma creations_quiet (b : Backend) (evs : list event) :
  Forall (fun e => is_creation b e = false) evs -> creations b evs = 0%nat.
Proof.
  unfold creations. induction 1 as [|e evs He _ IH]; [done |].
  simpl. by rewrite He.
Qed.

Lemma creations_app (b : Backend) (l1 l2 : list event) :
  creations b (l1 ++ l2) = (creations b l1 + creations b l2)%nat.
Proof. unfold creations. by rewrite List.filter_app, length_app. Qed.

(** Reading and probing never creates. *)
Lemma probe_no_creation (H : Host) (b : Backend) :
  emits (fun e => is_creation b e = false) (probe H b).
Proof.
  destruct b; unfold_adapters; repeat emits_step; reflexivity.
Qed.



Lemma ext_nil (l : list event) : l = [] ++ l.
Proof. reflexivity. Qed.

Lemma ext_cons (e : event) (t evs l : list event) :
  t = evs ++ l -> e :: t = (e :: evs) ++ l.
Proof. by intros ->. Qed.

Ltac solve_ext := repeat apply ext_cons; apply ext_nil.

(** The creation runs its primitive once, whatever the outcome. *)
Lemma create_once (H : Host) (b : Backend) (command : string) (w : World) :
  exists evs,
    log (create H b command w).2 = evs ++ log w /\ creations b evs = 1%nat.
Proof.
  destruct b; unfold_adapters;
    unfold bind, when, spawn, spawnSync, spawn_detached, Bun_write, defer,
      console_error, emit, ret; simpl;
    repeat case_match; simplify_eq/=;
    (eexists; split; [solve_ext | vm_compute; reflexivity]).
Qed.

Lemma lifecycle_live (H : Host) (b : Backend) (command : string) (w w1 : World)
    (h : Handle b) :
  probe H b w = (Some h, w1) -> truthy_handle b h = true ->
  lifecycle H b command w =
    (let r := reuse H b h command w1 in
     if r.1 then (true, r.2) else create H b command (clear b r.2).2).
Proof.
  intros Hp Ht. unfold lifecycle, bind. rewrite Hp, Ht.
  destruct (reuse H b h command w1) as [[|] w2]; simpl; [reflexivity |].
  by destruct (clear b w2).
Qed.

Lemma lifecycle_dead (H : Host) (b : Backend) (command : string) (w : World) :
  (probe H b w).1 = None ->
  lifecycle H b command w = create H b command (probe H b w).2.
Proof.
  intros Hp. unfold lifecycle, bind.
  destruct (probe H b w) as [existing w1]. simpl in Hp. by subst existing.
Qed.





(** An entry the backend goes on to probe: any text for tmux, a text that
    is not blank for iTerm2, WezTerm and Kitty, a text that starts with a
    number for the backends with numeric handles. *)
Definition well_formed (b : Backend) (content : string) : bool :=
  match b with
  | Tmux => true
  | ITerm2 | WezTerm | Kitty => truthy_str (trim content)
  | AppleTerminal | Alacritty | VSCode | Ghostty =>
      match parseInt (trim content) with Some _ => true | None => false end
  end.

(** Kitty can only be probed when its remote control answers. *)
Definition probe_possible (H : Host) (b : Backend) (w : World) : bool :=
  match b with
  | Kitty =>
      is_zero (status (spawnSync_answer H (log w) "kitty" ["@"; "ls"] (Some 2000%nat)))
  | _ => true
  end.

Lemma probe_dead_clears (H : Host) (b : Backend) (w : World) (content : string) :
  files w !! handle_file b = Some content ->
  well_formed b content = true ->
  probe_possible H b w = true ->
  (probe H b w).1 = None ->
  files (probe H b w).2 !! handle_file b = Some EmptyString
  /\ exists evs, log (probe H b w).2 = EvWrite (handle_file b) EmptyString :: evs ++ log w.
Proof.
  intros Hfile Hwf Hposs.
  destruct b; unfold_adapters;
    unfold bind, Bun_file, Bun_write, spawnSync, process_kill, ret;
    simpl in *; rewrite ?Hposs; simpl; rewrite Hfile; simpl;
    repeat case_match; simplify_eq/=; try done; intros _;
    (split; [apply lookup_insert_eq | eexists; f_equal; solve_ext]).
Qed.

Lemma number_eqb_refl (n : number) : number_eqb n n = true.
Proof. destruct n as [z | []]; [apply Z.eqb_refl | done | done]. Qed.

(** The event of a probe that confirms the handle [h] of a backend: the
    request the backend makes for [h], with an answer it takes as live. *)
Definition confirms (H : Host) (b : Backend) : Handle b -> event -> bool :=
  match b with
  | Tmux => fun id e =>
      match e with
      | EvSpawnSync "tmux" ["display-message"; "-t"; target; "-p"; "#{pane_id}"] None r =>
          String.eqb target id && is_zero (status r) && str_is (trim <$> stdout r) id
      | _ => false
      end
  | ITerm2 => fun id e =>
      match e with
      | EvSpawnSync "osascript" ["-e"; script] None r =>
          String.eqb script (iterm2_checkScript id)
          && is_zero (status r) && str_is (trim <$> stdout r) "exists"
      | _ => false
      end
  | AppleTerminal => fun id e =>
      match e with
      | EvSpawnSync "osascript" ["-e"; script] None r =>
          String.eqb script (terminal_checkScript id)
          && is_zero (status r) && str_is (trim <$> stdout r) "exists"
      | _ => false
      end
  | WezTerm => fun id e =>
      match e with
      | EvSpawnSync "wezterm" ["cli"; "list"; "--format=json"] None r =>
          is_zero (status r) && wezterm_pane_listed H (stdout r) id
      | _ => false
      end
  | Kitty => fun id e =>
      match e with
      | EvSpawnSync "kitty" ["@"; "ls"] None r =>
          is_zero (status r) && kitty_window_listed H (stdout r) id
      | _ => false
      end
  | Alacritty | VSCode | Ghostty => fun pid e =>
      match e with
      | EvKill target SIG0 ok => number_eqb target pid && ok
      | _ => false
      end
  end.

(** A handle comes out of the probe only with a confirming answer, given
    in the same call; the probe then leaves the files as they are. *)
Lemma probe_live_confirmed (H : Host) (b : Backend) (w w1 : World) (h : Handle b) :
  probe H b w = (Some h, w1) ->
  files w1 = files w
  /\ exists e before,
       log w1 = e :: before ++ log w /\ confirms H b h e = true.
Proof.
  destruct b; unfold_adapters;
    unfold bind, Bun_file, Bun_write, spawnSync, process_kill, ret;
    simpl in *; repeat case_match; simplify_eq/=; try done; intros [= <- <-];
    (split; [reflexivity |]); eexists _, _; (split; [solve_ext |]);
    simpl; rewrite ?String.eqb_refl, ?number_eqb_refl; simpl; done.
Qed.

(** C4, as stated, fails. The registry entry of Alacritty holds a text that
    is no process id. No live handle comes out of it, but the entry is not
    cleared: it still holds the text when the creation primitive runs, and
    the only write is the one of the new process id. *)
Lemma malformed_entry_not_cleared :
  let w := init {[ ALACRITTY_PID_FILE := "abc" ]} in
  let r := adapter Samples.alacritty_live Alacritty "run" w in
  (probe Samples.alacritty_live Alacritty w).1 = None
  /\ files (probe Samples.alacritty_live Alacritty w).2 !! ALACRITTY_PID_FILE
     = Some "abc"
  /\ trace r.2 =
       [EvSpawnDetached "alacritty" ["--title"; "Canvas"; "-e"; "/bin/sh"; "-c"; "run"]
          (Some 5000);
        EvWrite ALACRITTY_PID_FILE "5000"].
Proof. vm_compute. done. Qed.

(** C4, as the code has it. When the entry is one the backend goes on to
    probe (and, for Kitty, the remote control answers) and the probe fails,
    the last thing the probe does is to clear the entry, so the file holds
    the empty text when the creation starts. Whenever no live handle comes
    out of the registry and the probe, the call is the probe followed by the
    creation, which runs its primitive once. And a handle comes out of the
    probe, to be reused, only with a confirming answer to the probe of that
    handle in the same call. *)
Theorem dead_handle_cleared (H : Host) (b : Backend) (command : string) (w : World) :
  ((probe H b w).1 = None ->
     adapter H b command w = create H b command (probe H b w).2
     /\ exists evs,
          log (adapter H b command w).2 = evs ++ log w /\ creations b evs = 1%nat)
  /\ (forall content,
        files w !! handle_file b = Some content ->
        well_formed b content = true ->
        probe_possible H b w = true ->
        (probe H b w).1 = None ->
        files (probe H b w).2 !! handle_file b = Some EmptyString
        /\ exists evs,
             log (probe H b w).2 = EvWrite (handle_file b) EmptyString :: evs ++ log w)
  /\ (forall (h : Handle b) (w1 : World),
        probe H b w = (Some h, w1) ->
        files w1 = files w
        /\ exists e before,
             log w1 = e :: before ++ log w /\ confirms H b h e = true).
Proof.
  split; [| split; [| intros h w1; apply probe_live_confirmed]].
  - intros Hdead.
    pose proof (lifecycle_dead H b command w Hdead) as Hl.
    rewrite <- adapter_lifecycle in Hl. split; [exact Hl |]. rewrite Hl.
    destruct (probe_no_creation H b w) as (e1 & E1 & Q1). apply creations_quiet in Q1.
    destruct (create_once H b command (probe H b w).2) as (e2 & E2 & C2).
    exists (e2 ++ e1). split.
    + by rewrite E2, E1, app_assoc.
    + rewrite creations_app. lia.
  - intros content. apply probe_dead_clears.
Qed.

Lemma dead_handle_cleared_witness :
  let w := init {[ CANVAS_PANE_FILE := "%3" +:+ lf ]} in
  let r := adapter Samples.tmux_pane_gone Tmux "run" w in
  files (probe Samples.tmux_pane_gone Tmux w).2 !! CANVAS_PANE_FILE = Some EmptyString
  /\ r.1 = true
  /\ trace r.2 =
       [EvSpawnSync "tmux" ["display-message"; "-t"; "%3"; "-p"; "#{pane_id}"] None
          {| status := Some 1; stdout := Some EmptyString |};
        EvWrite CANVAS_PANE_FILE EmptyString;
        EvSpawn "tmux"
          ["split-window"; "-h"; "-p"; "67"; "-P"; "-F"; "#{pane_id}"; "run"]
          (Closed (Some 0) ("%7" +:+ lf));
        EvWrite CANVAS_PANE_FILE "%7"].
Proof.
  intros w r.
  destruct (dead_handle_cleared Samples.tmux_pane_gone Tmux "run" w)
    as (Hdead & Hclear & _).
  destruct (Hdead eq_refl) as [Hr _].
  destruct (Hclear ("%3" +:+ lf) eq_refl eq_refl eq_refl eq_refl) as [Hfile _].
  split; [exact Hfile |]. unfold r. rewrite Hr. split; reflexivity.
Defined.

(** ** The reuse transport *)

(** The reuse script of iTerm2 in its parts: what stands before the three
    commands sent to the session, the white space between them, and what
    stands after. *)
Definition iterm2_reuse_head (sessionId : string) : string :=
  "
      tell application " +:+ dq +:+ "iTerm2" +:+ dq +:+ "
        repeat with w in windows
          repeat with t in tabs of w
            repeat with s in sessions of t
              if unique ID of s is " +:+ dq +:+ sessionId +:+ dq +:+ " then
                tell s
                  ".

Definition iterm2_reuse_sep : string :=
  "
                  ".

Definition iterm2_reuse_tail : string :=
  "
                end tell
                return " +:+ dq +:+ "success" +:+ dq +:+ "
              end if
            end repeat
          end repeat
        end repeat
        return " +:+ dq +:+ "not_found" +:+ dq +:+ "
      end tell
    ".

Lemma iterm2_reuseScript_parts (sessionId command : string) :
  iterm2_reuseScript sessionId command =
    iterm2_reuse_head sessionId +:+ "write text (ASCII character 3)"
      +:+ iterm2_reuse_sep +:+ "delay 0.15" +:+ iterm2_reuse_sep
      +:+ "write text " +:+ dq +:+ "clear && " +:+ escape_dq command +:+ dq
      +:+ iterm2_reuse_tail.
Proof.
  unfold iterm2_reuseScript, iterm2_reuse_head, iterm2_reuse_sep, iterm2_reuse_tail.
  rewrite !app_assoc_s. reflexivity.
Qed.

(** [x === 0] for the exit code of a child that has ended. *)
Definition exit_ok (r : ChildExit) : bool :=
  match r with Closed code _ => is_zero code | LaunchError => false end.

(** A reuse in two steps, in the words of the design: a first child sends
    the interrupt; when it has ended (with whatever code), the caller waits
    150 ms; then a second child injects the text [clear && <command>]. The
    reuse succeeds exactly when the second child exits with 0, whatever the
    exit code of the first. A first child that cannot be started fails the
    reuse at once; the second child is then started 150 ms later by a timer
    that nothing waits for, and its result is lost. *)
Definition two_step_reuse (H : Host) (reuse_fn : string -> string -> M bool)
    (program : string) (interrupt : string -> list string)
    (inject : string -> string -> list string) : Prop :=
  forall (id command : string) (w : World),
    let k := spawn_answer H (log w) program (interrupt id) in
    let sent := EvSpawn program (interrupt id) k :: log w in
    let text := "clear && " +:+ command in
    let s := spawn_answer H (EvSleep 150 :: sent) program (inject id text) in
    reuse_fn id command w =
      match k with
      | LaunchError =>
          (false,
           {| files := files w;
              log := EvDefer 150 (LateSpawn program (inject id text)) :: sent |})
      | Closed _ _ =>
          (exit_ok s,
           {| files := files w;
              log := EvSpawn program (inject id text) s :: EvSleep 150 :: sent |})
      end.

(** The backends the claim is about. *)
Definition keystroke_backends : list Backend := [Tmux; ITerm2; WezTerm; Kitty].

(** C6, as stated, fails. The pane of tmux is alive, the child that sends
    the interrupt reports the result 1, and the child that types the command
    exits with 0: the reuse succeeds, the entry is not cleared and no pane
    is created. *)
Lemma interrupt_result_ignored :
  let w := init {[ CANVAS_PANE_FILE := "%3" +:+ lf ]} in
  let r := adapter Samples.tmux_interrupt_refused Tmux "run" w in
  r.1 = true
  /\ trace r.2 =
       [EvSpawnSync "tmux" ["display-message"; "-t"; "%3"; "-p"; "#{pane_id}"] None
          {| status := Some 0; stdout := Some ("%3" +:+ lf) |};
        EvSpawn "tmux" ["send-keys"; "-t"; "%3"; "C-c"] (Closed (Some 1) EmptyString);
        EvSleep 150;
        EvSpawn "tmux" ["send-keys"; "-t"; "%3"; "clear && run"; "Enter"]
          (Closed (Some 0) EmptyString)]
  /\ files r.2 !! CANVAS_PANE_FILE = Some ("%3" +:+ lf)
  /\ creations Tmux (trace r.2) = 0%nat.
Proof. vm_compute. done. Qed.

(** C6, as the code has it. For tmux, WezTerm and Kitty the reuse is the
    two steps above, with the send-keys or send-text command of the product:
    the result of the child that sends the interrupt is not looked at, the
    reuse succeeds exactly when the child that injects the text exits with
    0, and it fails when one of the two cannot be started. For iTerm2 the
    reuse is one script that writes the interrupt character, delays 0.15 s
    and writes [clear && <command>] (with the double quotes of the command
    escaped for the script), in that order, with only white space between
    the three; it succeeds when the script exits with 0 and prints success.
    For each of the four, when the probe confirmed a live handle and the
    reuse fails, the call clears the entry and goes on to the creation. *)
Theorem reuse_protocol (H : Host) :
  two_step_reuse H (reuseExistingPane H) "tmux"
    (fun id => ["send-keys"; "-t"; id; "C-c"])
    (fun id text => ["send-keys"; "-t"; id; text; "Enter"])
  /\ two_step_reuse H (reuseWezTermPane H) "wezterm"
       (fun id => ["cli"; "send-text"; "--pane-id"; id; "--no-paste"; etx])
       (fun id text => ["cli"; "send-text"; "--pane-id"; id; "--no-paste"; text +:+ lf])
  /\ two_step_reuse H (reuseKittyWindow H) "kitty"
       (fun id => ["@"; "send-text"; "--match"; "id:" +:+ id; etx])
       (fun id text => ["@"; "send-text"; "--match"; "id:" +:+ id; text +:+ lf])
  /\ (forall (id command : string) (w : World),
        let r := spawn_answer H (log w) "osascript" ["-e"; iterm2_reuseScript id command] in
        reuseITerm2Session H id command w =
          (match r with
           | Closed code output => is_zero code && String.eqb (trim output) "success"
           | LaunchError => false
           end,
           {| files := files w;
              log := EvSpawn "osascript" ["-e"; iterm2_reuseScript id command] r :: log w |})
        /\ iterm2_reuseScript id command =
             iterm2_reuse_head id +:+ "write text (ASCII character 3)"
               +:+ iterm2_reuse_sep +:+ "delay 0.15" +:+ iterm2_reuse_sep
               +:+ "write text " +:+ dq +:+ "clear && " +:+ escape_dq command +:+ dq
               +:+ iterm2_reuse_tail
        /\ trim iterm2_reuse_sep = EmptyString)
  /\ (forall (b : Backend) (h : Handle b) (command : string) (w w1 : World),
        In b keystroke_backends ->
        probe H b w = (Some h, w1) -> truthy_handle b h = true ->
        (reuse H b h command w1).1 = false ->
        let cleared := (clear b (reuse H b h command w1).2).2 in
        adapter H b command w = create H b command cleared
        /\ files cleared !! handle_file b = Some EmptyString
        /\ log cleared = EvWrite (handle_file b) EmptyString
                           :: log (reuse H b h command w1).2).
Proof.
  split; [| split; [| split; [| split]]].
  - intros id command w.
    unfold reuseExistingPane, bind, spawn, sleep, defer, emit, ret.
    cbn [fst snd files log].
    destruct (spawn_answer H (log w) "tmux" _); [reflexivity |].
    cbn [fst snd files log].
    by destruct (spawn_answer H _ "tmux" _).
  - intros id command w.
    unfold reuseWezTermPane, bind, spawn, sleep, defer, emit, ret.
    cbn [fst snd files log]. rewrite !app_assoc_s.
    destruct (spawn_answer H (log w) "wezterm" _); [reflexivity |].
    cbn [fst snd files log].
    by destruct (spawn_answer H _ "wezterm" _).
  - intros id command w.
    unfold reuseKittyWindow, bind, spawn, sleep, defer, emit, ret.
    cbn [fst snd files log]. rewrite !app_assoc_s.
    destruct (spawn_answer H (log w) "kitty" _); [reflexivity |].
    cbn [fst snd files log].
    by destruct (spawn_answer H _ "kitty" _).
  - intros id command w r. split; [| split].
    + unfold reuseITerm2Session, bind, spawn, ret. fold r. by destruct r.
    + apply iterm2_reuseScript_parts.
    + reflexivity.
  - intros b h command w w1 Hin Hp Ht Hfail cleared.
    pose proof (lifecycle_live H b command w w1 h Hp Ht) as Hl.
    rewrite <- adapter_lifecycle in Hl. cbv zeta in Hl. rewrite Hfail in Hl.
    split; [exact Hl |]. unfold cleared, clear, Bun_write. cbn [fst snd files log].
    split; [apply lookup_insert_eq | reflexivity].
Qed.

Lemma reuse_protocol_witness :
  let w := init {[ CANVAS_PANE_FILE := "%3" +:+ lf ]} in
  let r := adapter Samples.tmux_pane_deaf Tmux "run" w in
  r.1 = true
  /\ trace r.2 =
       [EvSpawnSync "tmux" ["display-message"; "-t"; "%3"; "-p"; "#{pane_id}"] None
          {| status := Some 0; stdout := Some ("%3" +:+ lf) |};
        EvSpawn "tmux" ["send-keys"; "-t"; "%3"; "C-c"] (Closed (Some 1) EmptyString);
        EvSleep 150;
        EvSpawn "tmux" ["send-keys"; "-t"; "%3"; "clear && run"; "Enter"]
          (Closed (Some 1) EmptyString);
        EvWrite CANVAS_PANE_FILE EmptyString;
        EvSpawn "tmux"
          ["split-window"; "-h"; "-p"; "67"; "-P"; "-F"; "#{pane_id}"; "run"]
          (Closed (Some 0) ("%7" +:+ lf));
        EvWrite CANVAS_PANE_FILE "%7"].
Proof.
  intros w r.
  destruct (reuse_protocol Samples.tmux_pane_deaf) as (_ & _ & _ & _ & Hfail).
  destruct (Hfail Tmux "%3" "run" w (probe Samples.tmux_pane_deaf Tmux w).2
              (or_introl eq_refl) eq_refl eq_refl eq_refl) as [Hr _].
  unfold r. rewrite Hr. split; reflexivity.
Defined.


(** * Further properties of the code *)

(** ** Trimming and numbers *)

Lemma skip_space_length (s r : string) :
  skip_space s = Some r -> (String.length r < String.length s)%nat.
Proof.
  unfold skip_space. destruct s as [|c [|c1 [|c2 r2]]];
    repeat case_match; intros [= <-]; cbn [String.length]; lia.
Qed.

Lemma trimStart_fuel_enough (n m : nat) (s : string) :
  (String.length s <= n)%nat -> (String.length s <= m)%nat ->
  trimStart_fuel n s = trimStart_fuel m s.
Proof.
  revert m s. induction n as [|n IH]; intros m s Hn Hm.
  - destruct s; [| cbn [String.length] in Hn; lia].
    by destruct m.
  - destruct m as [|m].
    + destruct s; [done | cbn [String.length] in Hm; lia].
    + cbn [trimStart_fuel]. destruct (skip_space s) as [r|] eqn:E; [| done].
      apply skip_space_length in E. apply IH; lia.
Qed.

(** White space at the start is skipped one character after the other. *)
Lemma trimStart_eq (s : string) :
  trimStart s = match skip_space s with Some r => trimStart r | None => s end.
Proof.
  unfold trimStart. destruct s as [|c s]; [done |].
  cbn [String.length trimStart_fuel].
  destruct (skip_space (String c s)) as [r|] eqn:E; [| done].
  apply skip_space_length in E. cbn [String.length] in E.
  apply trimStart_fuel_enough; lia.
Qed.

Lemma trimStart_fixed (s : string) : skip_space s = None -> trimStart s = s.
Proof. intros E. by rewrite trimStart_eq, E. Qed.

Lemma skip_trimStart (s : string) : skip_space (trimStart s) = None.
Proof.
  remember (String.length s) as n eqn:Hn. revert s Hn.
  induction (lt_wf n) as [n _ IH]. intros s ->.
  rewrite trimStart_eq. destruct (skip_space s) as [r|] eqn:E; [| exact E].
  apply (IH (String.length r)); [by apply skip_space_length | done].
Qed.

Lemma skip_space_app (a a' t : string) :
  skip_space a = Some a' -> skip_space (a +:+ t) = Some (a' +:+ t).
Proof.
  unfold skip_space. destruct a as [|c [|c1 [|c2 r2]]];
    rewrite ?append_cons, ?append_nil_l;
    repeat case_match; try discriminate; by intros [= <-].
Qed.

Lemma trimEnd_cons (c : ascii) (r : string) :
  trimEnd (String c r) =
    if blank (String c r) then EmptyString else String c (trimEnd r).
Proof. reflexivity. Qed.

Lemma blank_nil (s : string) : blank s = true <-> trimStart s = EmptyString.
Proof. unfold blank. by destruct (trimStart s). Qed.

Lemma blank_app (a t : string) :
  blank a = true -> blank t = true -> blank (a +:+ t) = true.
Proof.
  remember (String.length a) as n eqn:Hn. revert a Hn.
  induction (lt_wf n) as [n _ IH]. intros a -> Ha Ht.
  apply blank_nil in Ha. rewrite trimStart_eq in Ha.
  destruct (skip_space a) as [a'|] eqn:E.
  - apply blank_nil. rewrite trimStart_eq, (skip_space_app a a' t E).
    apply blank_nil.
    apply (IH (String.length a')); [by apply skip_space_length | done | | done].
    by apply blank_nil.
  - subst a. by rewrite append_nil_l.
Qed.

(** What [trimEnd] takes away is white space. *)
Lemma trimEnd_split (s : string) :
  exists t, s = trimEnd s +:+ t /\ blank t = true.
Proof.
  induction s as [|c r (t & E & Ht)]; [by exists EmptyString |].
  rewrite trimEnd_cons. destruct (blank (String c r)) eqn:Hb.
  - by exists (String c r).
  - exists t. split; [| exact Ht]. by rewrite append_cons, <- E.
Qed.

Lemma trimEnd_idem (s : string) : trimEnd (trimEnd s) = trimEnd s.
Proof.
  induction s as [|c r IH]; [done |].
  rewrite trimEnd_cons. destruct (blank (String c r)) eqn:Hb; [done |].
  rewrite trimEnd_cons, IH.
  destruct (blank (String c (trimEnd r))) eqn:Hb'; [| done].
  destruct (trimEnd_split r) as (t & E & Ht).
  pose proof (blank_app _ t Hb' Ht) as Hall.
  rewrite append_cons, <- E in Hall. congruence.
Qed.

Lemma trimStart_trim (s : string) : trimStart (trim s) = trim s.
Proof.
  unfold trim. apply trimStart_fixed.
  destruct (skip_space (trimEnd (trimStart s))) as [r|] eqn:E; [| done].
  destruct (trimEnd_split (trimStart s)) as (t & Es & _).
  pose proof (skip_space_app _ _ t E) as Hs. rewrite <- Es in Hs.
  by rewrite skip_trimStart in Hs.
Qed.

(** Trimming twice is trimming once. *)
Lemma trim_idem (s : string) : trim (trim s) = trim s.
Proof. unfold trim at 1. rewrite trimStart_trim. unfold trim. apply trimEnd_idem. Qed.

(** A text that starts with a character of one byte that is no white space
    has no white space at its start. *)
Lemma skip_space_ascii (c : ascii) (r : string) :
  (nat_of_ascii c < 128)%nat -> is_space c = false ->
  skip_space (String c r) = None.
Proof.
  intros Hc Hs. unfold skip_space. rewrite Hs.
  assert (Hb : forall n, (128 <= n)%nat -> byte_is c n = false).
  { intros n Hn. unfold byte_is. apply Nat.eqb_neq. lia. }
  destruct r as [|c1 [|c2 r2]]; [done | |];
    rewrite ?(Hb 194%nat), ?(Hb 225%nat), ?(Hb 226%nat), ?(Hb 227%nat),
      ?(Hb 239%nat) by lia; done.
Qed.

(** A text of decimal digits, from the values of its digits. *)
Fixpoint render_digits (ds : list Z) : string :=
  match ds with
  | [] => EmptyString
  | d :: r => String (pretty_N_char (Z.to_N d)) (render_digits r)
  end.

Definition is_digit_value (d : Z) : Prop := 0 <= d < 10.

Lemma pretty_N_char_digit (d : Z) :
  is_digit_value d ->
  is_digit (pretty_N_char (Z.to_N d)) = true
  /\ is_space (pretty_N_char (Z.to_N d)) = false
  /\ Z.of_nat (nat_of_ascii (pretty_N_char (Z.to_N d)) - 48) = d
  /\ Ascii.eqb (pretty_N_char (Z.to_N d)) "-" = false
  /\ Ascii.eqb (pretty_N_char (Z.to_N d)) "+" = false
  /\ (nat_of_ascii (pretty_N_char (Z.to_N d)) < 128)%nat.
Proof.
  intros [Hlo Hhi].
  assert (d = 0 \/ d = 1 \/ d = 2 \/ d = 3 \/ d = 4 \/ d = 5 \/ d = 6 \/ d = 7
          \/ d = 8 \/ d = 9) as Hd by lia.
  repeat (destruct Hd as [-> | Hd]; [by vm_compute; repeat split; lia |]).
  subst d. by vm_compute; repeat split; lia.
Qed.

Lemma append_nil_r (t : string) : t +:+ EmptyString = t.
Proof. induction t as [|c t IH]; [done |]. by rewrite append_cons, IH. Qed.

Lemma digits_prefix_render (ds : list Z) (s : string) :
  Forall is_digit_value ds ->
  digits_prefix (render_digits ds +:+ s) = ds ++ digits_prefix s.
Proof.
  induction 1 as [|d ds Hd _ IH]; [done |].
  destruct (pretty_N_char_digit d Hd) as (H1 & _ & H3 & _).
  cbn [render_digits]. rewrite append_cons. cbn [digits_prefix].
  by rewrite H1, H3, IH.
Qed.

Lemma trimStart_render (d : Z) (ds : list Z) :
  is_digit_value d -> trimStart (render_digits (d :: ds)) = render_digits (d :: ds).
Proof.
  intros Hd. destruct (pretty_N_char_digit d Hd) as (_ & H2 & _ & _ & _ & H6).
  apply trimStart_fixed. cbn [render_digits]. by apply skip_space_ascii.
Qed.

Lemma trimEnd_render (ds : list Z) : Forall is_digit_value ds ->
  trimEnd (render_digits ds) = render_digits ds.
Proof.
  induction 1 as [|d ds Hd _ IH]; [done |].
  pose proof (trimStart_render d ds Hd) as Hs.
  cbn [render_digits] in *. rewrite trimEnd_cons, IH.
  unfold blank. by rewrite Hs.
Qed.

Lemma render_digits_app (a b : list Z) :
  render_digits (a ++ b) = render_digits a +:+ render_digits b.
Proof.
  induction a as [|d a IH]; [done |].
  cbn [app render_digits]. by rewrite append_cons, IH.
Qed.

(** What [pretty] prints for a natural number, in front of [s]: the digits
    of the number. *)
Lemma pretty_N_go_digits (x : N) (s : string) :
  exists ds,
    pretty_N_go x s = render_digits ds +:+ s
    /\ Forall is_digit_value ds
    /\ digits_value ds = Z.of_N x
    /\ ((0 < x)%N -> ds <> []).
Proof.
  revert s. induction (N.lt_wf_0 x) as [x _ IH]. intros s.
  destruct (decide (x = 0)%N) as [-> | Hx].
  - exists []. rewrite pretty_N_go_0.
    split; [done |]. split; [constructor |]. split; [done |].
    intros Hlt. by apply N.lt_irrefl in Hlt.
  - rewrite pretty_N_go_step by lia.
    destruct (IH (x `div` 10)%N) with (s := String (pretty_N_char (x `mod` 10)) s)
      as (ds & E & F & V & _).
    { apply N.div_lt; lia. }
    exists (ds ++ [Z.of_N (x `mod` 10)]).
    assert (Hm : (x `mod` 10 < 10)%N) by (apply N.mod_lt; lia).
    split; [| split; [| split]].
    + rewrite E, render_digits_app, app_assoc_s. cbn [render_digits].
      by rewrite N2Z.id.
    + apply Forall_app. split; [exact F |]. constructor; [| constructor].
      unfold is_digit_value. split; [apply N2Z.is_nonneg |].
      apply N2Z.inj_lt in Hm. exact Hm.
    + unfold digits_value in *. rewrite fold_left_app. cbn [fold_left]. rewrite V.
      pose proof (N.div_mod x 10) as Hdm. lia.
    + intros _. by destruct ds.
Qed.

Lemma pretty_positive_digits (p : positive) :
  exists d ds,
    pretty p = render_digits (d :: ds)
    /\ Forall is_digit_value (d :: ds)
    /\ digits_value (d :: ds) = Z.pos p.
Proof.
  unfold pretty, pretty_positive, pretty, pretty_N.
  destruct (decide (N.pos p = 0%N)) as [Hp | _]; [discriminate Hp |].
  destruct (pretty_N_go_digits (N.pos p) EmptyString) as (ds & E & F & V & Hne).
  destruct ds as [|d ds]; [by destruct Hne |].
  exists d, ds. split; [| done]. by rewrite E, append_nil_r.
Qed.

(** The decimal digits of an integer are left as they are by [trim], and
    [parseInt] reads them as the double nearest to the integer. *)
Lemma parseInt_pretty (z : Z) :
  trim (pretty z) = pretty z /\ parseInt (pretty z) = Some (to_double z).
Proof.
  unfold pretty at 1 2 3, pretty_Z. destruct z as [|p|p].
  - by vm_compute.
  - destruct (pretty_positive_digits p) as (d & ds & -> & F & V).
    pose proof (Forall_inv F) as Hd.
    destruct (pretty_N_char_digit d Hd) as (H1 & H2 & H3 & H4 & H5 & H6).
    pose proof (digits_prefix_render (d :: ds) EmptyString F) as Hp.
    rewrite append_nil_r in Hp.
    split.
    + unfold trim. rewrite (trimStart_render d ds Hd).
      apply (trimEnd_render (d :: ds) F).
    + unfold parseInt. rewrite (trimStart_render d ds Hd).
      cbn [render_digits]. rewrite H4, H5.
      cbn [render_digits] in Hp. rewrite Hp. cbn [digits_prefix app].
      rewrite app_nil_r. by rewrite V.
  - destruct (pretty_positive_digits p) as (d & ds & -> & F & V).
    pose proof (Forall_inv F) as Hd.
    destruct (pretty_N_char_digit d Hd) as (H1 & H2 & H3 & H4 & H5 & H6).
    pose proof (digits_prefix_render (d :: ds) EmptyString F) as Hp.
    rewrite append_nil_r in Hp.
    pose proof (trimEnd_render (d :: ds) F) as Ht.
    assert (Hminus : trimStart ("-" +:+ render_digits (d :: ds))
                     = "-" +:+ render_digits (d :: ds)).
    { apply trimStart_fixed. rewrite append_cons, append_nil_l.
      apply skip_space_ascii; [vm_compute; lia | reflexivity]. }
    split.
    + unfold trim. rewrite Hminus. rewrite append_cons, append_nil_l.
      rewrite trimEnd_cons, Ht. rewrite <- (append_nil_l (render_digits (d :: ds))).
      rewrite <- append_cons. unfold blank. by rewrite Hminus.
    + unfold parseInt. rewrite Hminus. rewrite append_cons, append_nil_l.
      change (Ascii.eqb "-" "-") with true. cbv iota.
      rewrite Hp. cbn [digits_prefix app]. rewrite app_nil_r.
      by rewrite V.
Qed.

(** The integers every one of which is a double: below 2^53 in size. *)
Definition safe (n : number) : Prop :=
  match n with
  | Int z => Z.abs z < 2 ^ 53
  | Infinity _ => False
  end.

Lemma to_double_safe (z : Z) : Z.abs z < 2 ^ 53 -> to_double z = Int z.
Proof.
  intros Hz. unfold to_double.
  destruct (Z.leb_spec (Z.log2 (Z.abs z) - 52) 0) as [_ | He]; [done |].
  assert (Hpos : 0 < Z.abs z).
  { destruct (Z.abs z) eqn:E; [cbn in He; lia | lia | lia]. }
  apply (Z.log2_lt_pow2 _ 53) in Hz; lia.
Qed.

(** From 2^53 on, the nearest double is no smaller than 2^53. *)
Lemma to_double_large (a x : Z) :
  2 ^ 53 <= a -> x < 2 ^ 53 -> number_eqb (to_double a) (Int x) = false.
Proof.
  intros Ha Hx. unfold to_double.
  assert (Habs : Z.abs a = a) by lia. rewrite Habs.
  assert (Hlog : 53 <= Z.log2 a) by (apply Z.log2_le_pow2; lia).
  destruct (Z.leb_spec (Z.log2 a - 52) 0) as [He | He]; [lia |].
  set (e := Z.log2 a - 52) in *.
  set (q := Z.shiftr a e).
  match goal with
  | |- context [if ?c then q + 1 else q] => set (q' := if c then q + 1 else q)
  end.
  assert (Hq : 2 ^ 52 <= q).
  { unfold q. rewrite Z.shiftr_div_pow2 by lia.
    apply Z.div_le_lower_bound; [apply Z.pow_pos_nonneg; lia |].
    rewrite <- Z.pow_add_r by lia.
    replace (e + 52) with (Z.log2 a) by (unfold e; lia).
    apply Z.log2_spec. lia. }
  assert (Hq' : 2 ^ 52 <= q') by (unfold q'; case_match; lia).
  assert (Hm : 2 ^ 53 <= Z.shiftl q' e).
  { rewrite Z.shiftl_mul_pow2 by lia.
    assert (Hp : 2 ^ 1 <= 2 ^ e) by (apply Z.pow_le_mono_r; lia).
    change (2 ^ 53) with (2 ^ 52 * 2 ^ 1). apply Z.mul_le_mono_nonneg; lia. }
  destruct (2 ^ 1024 <=? Z.shiftl q' e); [done |].
  cbn [number_eqb]. apply Z.eqb_neq.
  assert (Hs : Z.sgn a = 1) by (apply Z.sgn_pos; lia). rewrite Hs. lia.
Qed.

(** Below 2^53 no shorter digits read back as the same number. *)
Lemma shortest_at_safe (x : Z) (j : nat) :
  0 < x < 2 ^ 53 -> shortest_at x j = None \/ shortest_at x j = Some x.
Proof.
  intros Hx. unfold shortest_at.
  set (p := 10 ^ Z.of_nat j).
  assert (Hp : 0 < p) by (apply Z.pow_pos_nonneg; lia).
  set (lo := x / p * p).
  assert (Hlo : 0 <= lo <= x).
  { unfold lo. pose proof (Z.mul_div_le x p Hp) as Hle.
    pose proof (Z.div_pos x p) as Hd. nia. }
  assert (Hhi : x < lo + p).
  { unfold lo. pose proof (Z.mod_pos_bound x p Hp) as Hm.
    pose proof (Z.div_mod x p) as Hdm. nia. }
  rewrite (to_double_safe lo) by lia. cbn [number_eqb].
  assert (Hno : number_eqb (to_double (lo + p)) (Int x) = false).
  { destruct (Z.lt_ge_cases (lo + p) (2 ^ 53)) as [Hs | Hl].
    - rewrite to_double_safe by lia. cbn [number_eqb]. apply Z.eqb_neq. lia.
    - apply to_double_large; lia. }
  rewrite Hno. destruct (Z.eqb_spec lo x) as [-> | _]; [by right | by left].
Qed.

Lemma shortest_safe (x : Z) : 0 < x < 2 ^ 53 -> shortest x = x.
Proof.
  intros Hx. unfold shortest. generalize (Z.to_nat (Z.log2 x)) as j.
  induction j as [|j IH]; cbn [shortest_from];
    destruct (shortest_at_safe x 0 Hx) as [E0 | E0];
    try (destruct (shortest_at_safe x (S j) Hx) as [E | E]; rewrite E);
    rewrite ?E0; done.
Qed.

(** [String] prints a safe integer with all its digits. *)
Lemma String_of_num_safe (z : Z) : Z.abs z < 2 ^ 53 -> String_of_num z = pretty z.
Proof.
  intros Hz. unfold String_of_num.
  destruct (Z.eqb_spec z 0) as [-> | Hnz]; [done |].
  rewrite shortest_safe by lia.
  assert (Hlt : (Z.abs z <? 10 ^ 21) = true).
  { apply Z.ltb_lt. assert (2 ^ 53 < 10 ^ 21) by (by vm_compute). lia. }
  rewrite Hlt. destruct z as [|p|p]; [done | |].
  - by rewrite append_nil_l.
  - reflexivity.
Qed.

(** [parseInt(String(n), 10)] is [n] for a safe integer, also through
    [trim]. *)
Lemma parseInt_String_of_num (z : Z) :
  Z.abs z < 2 ^ 53 ->
  trim (String_of_num z) = String_of_num z
  /\ parseInt (String_of_num z) = Some (Int z).
Proof.
  intros Hz. rewrite (String_of_num_safe z Hz).
  destruct (parseInt_pretty z) as [Ht Hp].
  by rewrite Ht, Hp, (to_double_safe z Hz).
Qed.

(** From 10^21 on the digits are not read back: the first of the doubles
    that [String] prints with an exponent is read back as 1. *)
Lemma exponent_not_read_back :
  String_of_num (10 ^ 21) = "1e+21" /\ parseInt "1e+21" = Some (Int 1).
Proof. by vm_compute. Qed.

(** What [parseInt] reads is a double: reading the digits of a number above
    2^53 gives a neighbour of it. *)
Lemma parseInt_rounds :
  parseInt "9007199254740993" = Some (Int 9007199254740992)
  /\ String_of_num 9007199254740992 = "9007199254740992".
Proof. by vm_compute. Qed.
(** ** The registry between two calls *)

(** What the save function of a backend writes for a handle. *)
Definition render (b : Backend) : Handle b -> string :=
  match b return Handle b -> string with
  | AppleTerminal | Alacritty | VSCode | Ghostty => String_of_num
  | Tmux | ITerm2 | WezTerm | Kitty => fun id => id
  end.

(** The handle the getter of a backend reads out of the content of its
    registry file; [None] when the getter does not go on to probe. *)
Definition parse (b : Backend) : string -> option (Handle b) :=
  match b return string -> option (Handle b) with
  | Tmux => fun content => Some (trim content)
  | ITerm2 | WezTerm | Kitty => fun content =>
      if truthy_str (trim content) then Some (trim content) else None
  | AppleTerminal | Alacritty | VSCode | Ghostty => fun content =>
      parseInt (trim content)
  end.

(** The history the probe of a backend is answered in: Kitty has asked for
    its remote control before. *)
Definition probe_history (H : Host) (b : Backend) (w : World) : list event :=
  match b with
  | Kitty =>
      EvSpawnSync "kitty" ["@"; "ls"] (Some 2000%nat)
        (spawnSync_answer H (log w) "kitty" ["@"; "ls"] (Some 2000%nat)) :: log w
  | _ => log w
  end.

(** Whether the outside world confirms the handle [h] when asked in the
    history [hist]. *)
Definition answer_live (H : Host) (b : Backend) : Handle b -> list event -> bool :=
  match b return Handle b -> list event -> bool with
  | Tmux => fun id hist =>
      let r := spawnSync_answer H hist "tmux"
                 ["display-message"; "-t"; id; "-p"; "#{pane_id}"] None in
      is_zero (status r) && str_is (trim <$> stdout r) id
  | ITerm2 => fun id hist =>
      let r := spawnSync_answer H hist "osascript" ["-e"; iterm2_checkScript id] None in
      is_zero (status r) && str_is (trim <$> stdout r) "exists"
  | AppleTerminal => fun id hist =>
      let r := spawnSync_answer H hist "osascript" ["-e"; terminal_checkScript id] None in
      is_zero (status r) && str_is (trim <$> stdout r) "exists"
  | WezTerm => fun id hist =>
      let r := spawnSync_answer H hist "wezterm" ["cli"; "list"; "--format=json"] None in
      is_zero (status r) && wezterm_pane_listed H (stdout r) id
  | Kitty => fun id hist =>
      let r := spawnSync_answer H hist "kitty" ["@"; "ls"] None in
      is_zero (status r) && kitty_window_listed H (stdout r) id
  | Alacritty | VSCode | Ghostty => fun pid hist => kill_answer H hist pid SIG0
  end.

Ltac unfold_prims :=
  unfold bind, when, Bun_file, Bun_write, spawnSync, spawn, spawn_detached,
    process_kill, sleep, defer, console_error, emit, ret.

Ltac unfold_getters :=
  unfold probe, getCanvasPaneId, getITerm2SessionId, getAppleTerminalWindowId,
    getWezTermPaneId, getKittyWindowId, getAlacrittyPid, getVSCodePid,
    getGhosttyPid, isKittyRemoteControlAvailable.

(** X1. An entry that is not there, or that the getter does not take for a
    handle (a blank text for iTerm2, WezTerm and Kitty; a text that does not
    start with a number for the backends with numeric handles), is not
    probed: no handle comes out, nothing is asked of the outside world
    except Kitty's question for its remote control, and nothing is written.
    So, for every backend but tmux (which probes whatever text the file
    holds), the empty text left by a clear makes the next call go straight
    to the creation. *)
Theorem unreadable_entry_not_probed (H : Host) (b : Backend) (w : World) :
  files w !! handle_file b ≫= parse b = None ->
  (probe H b w).1 = None
  /\ files (probe H b w).2 = files w
  /\ log (probe H b w).2 = probe_history H b w.
Proof.
  intros Hp. destruct b; unfold_getters; unfold_prims; unfold probe_history;
    cbn [handle_file parse fst snd files log] in *.
  4:{ destruct (is_zero _); [| done]. cbn [fst snd files log].
      destruct (files w !! KITTY_WINDOW_FILE) as [content|]; [| done].
      cbn [mbind option_bind] in Hp.
      destruct (truthy_str (trim content)); [discriminate Hp | done]. }
  all: destruct (files w !! _) as [content|]; [| done];
    cbn [mbind option_bind] in Hp;
    first [ discriminate Hp
          | rewrite Hp; done
          | destruct (truthy_str (trim content)); [discriminate Hp | done] ].
Qed.

(** X2. An entry the getter takes for the handle [h] is probed for [h]: the
    probe returns [h] exactly when the outside world confirms it. (For Kitty,
    when its remote control answers.) *)
Theorem readable_entry_probed (H : Host) (b : Backend) (w : World)
    (content : string) (h : Handle b) :
  files w !! handle_file b = Some content ->
  parse b content = Some h ->
  probe_possible H b w = true ->
  (probe H b w).1 =
    if answer_live H b h (probe_history H b w) then Some h else None.
Proof.
  intros Hfile Hparse Hposs.
  destruct b; unfold_getters; unfold_prims; unfold probe_history;
    cbn [handle_file parse answer_live probe_possible] in *;
    cbv beta iota delta [Handle numeric_handle] in *;
    rewrite ?Hposs; cbn [fst snd files log]; rewrite Hfile;
    first [ injection Hparse as <-
          | destruct (truthy_str (trim content)); [injection Hparse as <- | discriminate Hparse]
          | rewrite Hparse ];
    cbn [fst snd files log];
    match goal with
    | |- _ = (if ?c then _ else _) => destruct c; reflexivity
    end.
Qed.

Lemma parse_render_num (n : number) :
  safe n -> parseInt (trim (String_of_num n)) = Some n.
Proof.
  destruct n as [z|]; [| done]. intros Hz.
  destruct (parseInt_String_of_num z Hz) as [-> ->]. done.
Qed.

(** The handles the registry gives back as they were stored: every text,
    and of the numbers the safe integers. *)
Definition read_back (b : Backend) : Handle b -> Prop :=
  match b return Handle b -> Prop with
  | AppleTerminal | Alacritty | VSCode | Ghostty => safe
  | Tmux | ITerm2 | WezTerm | Kitty => fun _ => True
  end.

(** The backends whose creation can succeed without an identity: tmux,
    WezTerm and Kitty when the new pane is not named (or Kitty has no remote
    control), Ghostty on macOS, where the identity is found later. *)
Definition identity_optional (H : Host) (b : Backend) : bool :=
  match b with
  | Tmux | WezTerm | Kitty => true
  | Ghostty => String.eqb (process_platform H) "darwin"
  | _ => false
  end.

(** X3. A creation writes the registry only when it succeeds, and then it
    writes a handle. The getter of the next call reads the same handle back
    when it is a text, or a number below 2^53 in size, which [String] prints
    with all its digits. For iTerm2, Apple Terminal, Alacritty, VS Code, and
    Ghostty off macOS a success always stores a handle; for the others a
    success may leave the registry as it was. *)
Theorem creation_registry (H : Host) (b : Backend) (command : string) (w : World) :
  let r := create H b command w in
  (r.1 = false -> files r.2 = files w)
  /\ (r.1 = true ->
      (exists h : Handle b,
          files r.2 = <[handle_file b := render b h]> (files w)
          /\ (read_back b h -> parse b (render b h) = Some h))
      \/ (identity_optional H b = true /\ files r.2 = files w)).
Proof.
  destruct b; unfold create, identity_optional;
    cbn [handle_file parse render read_back];
    cbv beta iota delta [Handle numeric_handle].
  - unfold createNewPane, saveCanvasPaneId. unfold_prims.
    destruct (spawn_answer H _ _ _) as [|code out]; cbn [fst snd files log]; [done |].
    destruct (is_zero code); [| done]. cbn [andb].
    destruct (truthy_str (trim out)) eqn:Ho; cbn [fst snd files log].
    + split; [done |]. intros _. left. exists (trim out). split; [done |]. by rewrite trim_idem.
    + split; [done |]. intros _. by right.
  - unfold createITerm2SplitPane, saveITerm2SessionId. unfold_prims.
    destruct (spawn_answer H _ _ _) as [|code out]; cbn [fst snd files log]; [done |].
    destruct (is_zero code); [| done]. cbn [andb].
    destruct (truthy_str (trim out)) eqn:Ho; cbn [fst snd files log]; [| done].
    split; [done |]. intros _. left. exists (trim out). split; [done |]. by rewrite trim_idem, Ho.
  - unfold createAppleTerminalWindow, saveAppleTerminalWindowId. unfold_prims.
    destruct (spawn_answer H _ _ _) as [|code out]; cbn [fst snd files log]; [done |].
    destruct (parseInt (trim out)) as [id|]; [| done].
    destruct (is_zero code); cbn [fst snd files log]; [| done].
    split; [done |]. intros _. left. exists id. split; [done | apply parse_render_num].
  - unfold createKittySplitPane, isKittyRemoteControlAvailable, saveKittyWindowId.
    unfold_prims. cbn [fst snd files log].
    destruct (is_zero (status _)); cbn [fst snd files log].
    + destruct (spawn_answer H _ _ _) as [|code out]; cbn [fst snd files log]; [done |].
      destruct (is_zero code); [| done].
      destruct (truthy_str (trim out)) eqn:Ho; cbn [fst snd files log].
      * split; [done |]. intros _. left. exists (trim out). split; [done |]. by rewrite trim_idem, Ho.
      * split; [done |]. intros _. by right.
    + split; [done |]. intros _. by right.
  - unfold createWezTermSplitPane, saveWezTermPaneId. unfold_prims.
    destruct (spawn_answer H _ _ _) as [|code out]; cbn [fst snd files log]; [done |].
    destruct (is_zero code); [| done].
    destruct (truthy_str (trim out)) eqn:Ho; cbn [fst snd files log].
    + split; [done |]. intros _. left. exists (trim out). split; [done |]. by rewrite trim_idem, Ho.
    + split; [done |]. intros _. by right.
  - unfold createAlacrittyWindow, saveAlacrittyPid. unfold_prims.
    destruct (pid_answer H _ _ _) as [p|]; cbn [fst snd files log]; [| done].
    destruct (truthy_num p); [| done].
    destruct (String.eqb (process_platform H) "darwin"); cbn [fst snd files log];
      (split; [done |]; intros _; left; exists (Int p);
       split; [done | apply parse_render_num]).
  - unfold createVSCodeTerminal, saveVSCodePid. unfold_prims.
    destruct (pid_answer H _ _ _) as [p|]; cbn [fst snd files log]; [| done].
    destruct (truthy_num p); [| done]. cbn [fst snd files log].
    split; [done |]. intros _. left. exists (Int p).
      split; [done | apply parse_render_num].
  - unfold createGhosttyWindow, saveGhosttyPid. unfold_prims.
    destruct (String.eqb (process_platform H) "darwin"); cbn [fst snd files log];
      (destruct (pid_answer H _ _ _) as [p|]; cbn [fst snd files log]; [| done];
       destruct (truthy_num p); [| done]; cbn [fst snd files log]).
    + split; [done |]. intros _. by right.
    + split; [done |]. intros _. left. exists (Int p).
      split; [done | apply parse_render_num].
Qed.

(** ** The files a call writes *)

(** [writes_within paths m]: whatever the world, [m] leaves every file
    outside [paths] as it is. *)
Definition writes_within {A} (paths : list string) (m : M A) : Prop :=
  forall w path, ~ In path paths -> files (m w).2 !! path = files w !! path.

Section Writes.

Variable H : Host.
Variable paths : list string.

Lemma writes_ret {A} (a : A) : writes_within paths (ret a).
Proof. by intros w path _. Qed.

Lemma writes_bind {A B} (m : M A) (k : A -> M B) :
  writes_within paths m -> (forall a, writes_within paths (k a)) ->
  writes_within paths (bind m k).
Proof.
  intros Hm Hk w path Hout. rewrite bind_run.
  by rewrite (Hk (m w).1 (m w).2 path Hout), (Hm w path Hout).
Qed.

Lemma writes_when (b : bool) (m : M unit) :
  writes_within paths m -> writes_within paths (when b m).
Proof. destruct b; [done | intros _; apply writes_ret]. Qed.

Lemma writes_Bun_write (path content : string) :
  In path paths -> writes_within paths (Bun_write path content).
Proof.
  intros Hin w path' Hout. cbn. apply lookup_insert_ne. by intros ->.
Qed.

Lemma writes_event (e : event) : writes_within paths (emit e).
Proof. by intros w path _. Qed.

Lemma writes_Bun_file (path : string) : writes_within paths (Bun_file path).
Proof. by intros w path' _. Qed.

Lemma writes_spawnSync cmd args timeout : writes_within paths (spawnSync H cmd args timeout).
Proof. by intros w path _. Qed.

Lemma writes_spawn cmd args : writes_within paths (spawn H cmd args).
Proof. by intros w path _. Qed.

Lemma writes_spawn_detached cmd args : writes_within paths (spawn_detached H cmd args).
Proof. by intros w path _. Qed.

Lemma writes_process_kill pid sig : writes_within paths (process_kill H pid sig).
Proof. by intros w path _. Qed.

End Writes.

Ltac writes_step :=
  lazymatch goal with
  | |- writes_within _ (bind _ _) => apply writes_bind; [| intros ?]
  | |- writes_within _ (ret _) => apply writes_ret
  | |- writes_within _ (when _ _) => apply writes_when
  | |- writes_within _ (Bun_write _ _) => apply writes_Bun_write
  | |- writes_within _ (Bun_file _) => apply writes_Bun_file
  | |- writes_within _ (spawnSync _ _ _ _) => apply writes_spawnSync
  | |- writes_within _ (spawn _ _ _) => apply writes_spawn
  | |- writes_within _ (spawn_detached _ _ _) => apply writes_spawn_detached
  | |- writes_within _ (process_kill _ _ _) => apply writes_process_kill
  | |- writes_within _ (sleep _) => apply writes_event
  | |- writes_within _ (defer _ _) => apply writes_event
  | |- writes_within _ (console_error _) => apply writes_event
  | |- writes_within _ (emit _) => apply writes_event
  | |- writes_within _ (match ?x with _ => _ end) => destruct x
  | |- writes_within _ (if ?x then _ else _) => destruct x
  end.

Lemma writes_weaken {A} (small large : list string) (m : M A) :
  (forall p, In p small -> In p large) ->
  writes_within small m -> writes_within large m.
Proof. intros Hsub Hm w path Hout. apply Hm. intros Hin. by apply Hout, Hsub. Qed.

Lemma adapter_writes (H : Host) (b : Backend) (command : string) :
  writes_within [handle_file b] (adapter H b command).
Proof.
  destruct b; unfold_adapters; repeat writes_step; by left.
Qed.

Lemma reuse_writes_nothing (H : Host) (b : Backend) (h : Handle b) (command : string) :
  writes_within [] (reuse H b h command).
Proof. destruct b; unfold_adapters; repeat writes_step. Qed.

(** The registry files of all backends. *)
Definition registry_files : list string := map handle_file spawn_order.

(** X4. An adapter writes no file but the registry file of its backend,
    and [spawnCanvas] writes no file but the config file of the id and the
    registry files. *)
Theorem spawnCanvas_writes (H : Host) (kind id : string)
    (configJson : option string) (options : option SpawnOptions) :
  (forall b command, writes_within [handle_file b] (adapter H b command))
  /\ writes_within (configFile id :: registry_files)
       (spawnCanvas H kind id configJson options).
Proof.
  split; [intros b command; apply adapter_writes |].
  unfold spawnCanvas, buildCommand, attempt.
  repeat first
    [ writes_step
    | apply (writes_weaken [handle_file ITerm2]); [| apply adapter_writes]
    | apply (writes_weaken [handle_file Tmux]); [| apply adapter_writes]
    | apply (writes_weaken [handle_file Kitty]); [| apply adapter_writes]
    | apply (writes_weaken [handle_file WezTerm]); [| apply adapter_writes]
    | apply (writes_weaken [handle_file Alacritty]); [| apply adapter_writes]
    | apply (writes_weaken [handle_file VSCode]); [| apply adapter_writes]
    | apply (writes_weaken [handle_file Ghostty]); [| apply adapter_writes]
    | apply (writes_weaken [handle_file AppleTerminal]); [| apply adapter_writes] ];
    try (by left);
    intros p [<- | []]; right; unfold registry_files, spawn_order;
    cbn [map In]; tauto.
Qed.

(** X5. A reuse that succeeds leaves every file as it was: the registry
    keeps the handle that was reused. *)
Theorem reuse_keeps_files (H : Host) (b : Backend) (command : string)
    (w w1 : World) (h : Handle b) :
  probe H b w = (Some h, w1) -> truthy_handle b h = true ->
  (reuse H b h command w1).1 = true ->
  (adapter H b command w).1 = true
  /\ files (adapter H b command w).2 = files w.
Proof.
  intros Hp Ht Hok.
  pose proof (lifecycle_live H b command w w1 h Hp Ht) as Hl.
  rewrite <- adapter_lifecycle in Hl. cbv zeta in Hl. rewrite Hok in Hl.
  rewrite Hl. cbn [fst snd]. split; [done |].
  destruct (probe_live_confirmed H b w w1 h Hp) as [Hf _].
  rewrite <- Hf. apply map_eq. intros path.
  apply (reuse_writes_nothing H b h command w1 path). intros [].
Qed.

(** X6. A handle that the probe confirms but that is falsy (the empty pane
    id of tmux, the window id or process id 0) is neither reused nor
    terminated nor cleared: the call goes straight to the creation. *)
Theorem falsy_handle_skipped (H : Host) (b : Backend) (command : string)
    (w w1 : World) (h : Handle b) :
  probe H b w = (Some h, w1) -> truthy_handle b h = false ->
  adapter H b command w = create H b command w1.
Proof.
  intros Hp Ht. rewrite adapter_lifecycle. unfold lifecycle, bind.
  by rewrite Hp, Ht.
Qed.

(** ** Signals *)

(** The process ids that were sent SIGTERM, in order. *)
Definition sigterms (evs : list event) : list number :=
  omap (fun e => match e with EvKill target SIGTERM _ => Some target | _ => None end) evs.

(** What an adapter of a backend with process ids terminates: the number
    the registry file starts with, when it is not zero and the process (or,
    for a negative number, the process group) answers signal 0; nothing
    else, and nothing when the file is missing or holds no number. *)
Definition terminates_registered (H : Host) (spawn_fn : string -> M bool)
    (file : string) : Prop :=
  forall (command : string) (fs : gmap string string),
    sigterms (trace (spawn_fn command (init fs)).2) =
      match fs !! file ≫= (fun content => parseInt (trim content)) with
      | Some pid => if truthy_num pid && kill_answer H [] pid SIG0 then [pid] else []
      | None => []
      end.

(** X7. Alacritty, VS Code and Ghostty send SIGTERM to exactly the number
    read from their registry file, provided it is not zero and answers
    signal 0. The number is not checked any further: a negative one, which
    names a process group, is terminated as well. *)
Theorem sigterm_targets (H : Host) :
  terminates_registered H (spawnAlacritty H) ALACRITTY_PID_FILE
  /\ terminates_registered H (spawnVSCode H) VSCODE_PID_FILE
  /\ terminates_registered H (spawnGhostty H) GHOSTTY_PID_FILE.
Proof.
  split; [| split]; intros command fs;
    unfold spawnAlacritty, spawnVSCode, spawnGhostty,
      getAlacrittyPid, getVSCodePid, getGhosttyPid, terminate,
      createAlacrittyWindow, createVSCodeTerminal, createGhosttyWindow,
      saveAlacrittyPid, saveVSCodePid, saveGhosttyPid, init, trace;
    unfold_prims; cbn [fst snd files log];
    destruct (fs !! _) as [content|]; cbn [mbind option_bind fst snd files log];
    try destruct (parseInt (trim content)) as [pid|]; cbn [fst snd files log];
    try destruct (kill_answer H [] pid SIG0); cbn [fst snd files log];
    try destruct (truthy_num pid); cbn [andb fst snd files log];
    try destruct (kill_answer H _ pid SIGTERM); cbn [fst snd files log];
    try destruct (String.eqb (process_platform H) "darwin"); cbn [fst snd files log];
    destruct (pid_answer H _ _ _) as [p|]; cbn [fst snd files log];
    try destruct (truthy_num p); reflexivity.
Qed.

(** ** Kitty without remote control, Ghostty on macOS *)

(** X8. When Kitty's remote control does not answer (neither to the
    adapter nor to the creation), [spawnKitty] starts a detached window and
    reports success whatever comes of it, also when no process was started.
    It reads and writes no file: no identity is kept. *)
Theorem kitty_without_remote_control (H : Host) (command : string) (w : World) :
  let ask := spawnSync_answer H (log w) "kitty" ["@"; "ls"] (Some 2000%nat) in
  let h1 := EvSpawnSync "kitty" ["@"; "ls"] (Some 2000%nat) ask :: log w in
  let ask' := spawnSync_answer H h1 "kitty" ["@"; "ls"] (Some 2000%nat) in
  let h2 := EvSpawnSync "kitty" ["@"; "ls"] (Some 2000%nat) ask' :: h1 in
  let args := ["--title=Canvas"; "bash"; "-c"; command] in
  is_zero (status ask) = false -> is_zero (status ask') = false ->
  spawnKitty H command w =
    (true,
     {| files := files w;
        log := EvSpawnDetached "kitty" args (pid_answer H h2 "kitty" args) :: h2 |}).
Proof.
  intros ask h1 ask' h2 args Hno Hno'.
  unfold spawnKitty, or_create, createKittySplitPane, isKittyRemoteControlAvailable.
  unfold_prims. cbn [fst snd files log]. fold ask. rewrite Hno.
  cbn [fst snd files log]. fold h1. fold ask'. rewrite Hno'. reflexivity.
Qed.

(** X9. On macOS the creation of a Ghostty window writes no file: the
    process id of the launcher is never stored, only a follow-up is
    scheduled 1000 ms later. The follow-up stores the number that pgrep
    prints for the newest ghostty process, and leaves the registry as it is
    when pgrep prints no number. *)
Theorem ghostty_identity_deferred (H : Host) (command : string) (w : World) :
  process_platform H = "darwin" ->
  (let r := createGhosttyWindow H command w in
   files r.2 = files w
   /\ (r.1 = true ->
       exists p,
         log r.2 =
           EvDefer 1000 GhosttyFollowUp
             :: EvSpawnDetached "open"
                  ["-na"; "Ghostty.app"; "--args"; "-e"; "/bin/sh"; "-c"; command]
                  (Some p)
             :: log w))
  /\ (let found := spawnSync_answer H (log w) "pgrep" ["-n"; "ghostty"] None in
      files (run_deferred H GhosttyFollowUp w).2 =
        match stdout found ≫= (fun out => parseInt (trim out)) with
        | Some pid => <[GHOSTTY_PID_FILE := String_of_num pid]> (files w)
        | None => files w
        end).
Proof.
  intros Hdarwin. split.
  - unfold createGhosttyWindow. rewrite Hdarwin. cbv zeta.
    change (String.eqb "darwin" "darwin") with true. cbv iota.
    unfold_prims. cbn [fst snd files log].
    destruct (pid_answer H _ _ _) as [p|]; cbn [fst snd files log]; [| done].
    destruct (truthy_num p); cbn [fst snd files log]; [| done].
    split; [done |]. intros _. by exists p.
  - unfold run_deferred, saveGhosttyPid. unfold_prims. cbn [fst snd files log].
    destruct (stdout _) as [out|]; cbn [mbind option_bind fst snd files log]; [| done].
    by destruct (parseInt (trim out)).
Qed.

(** ** More on the socket query helper *)

Module CliMore.
Import Cli CliFacts.

Section Request.

Variable JSON_parse : string -> option json.
Variables (socketPath requestType expectedResponseType : string).
Variable timeoutMs : option nat.

Abbreviation deliver := (deliver JSON_parse requestType expectedResponseType).
Abbreviation run := (run JSON_parse requestType expectedResponseType).
Abbreviation request :=
  (sendCanvasRequest JSON_parse socketPath requestType expectedResponseType timeoutMs).

(** X10. A reply that arrives first but does not parse, or parses to
    [null], settles nothing and stops the timer: the promise stays pending
    whatever comes later, so the call neither resolves nor times out. *)
Theorem unparsable_reply_hangs (pre post : list (nat * SocketEvent)) (t : nat)
    (bytes : string) :
  only_opens timeoutMs pre -> (t < timeout_ms timeoutMs)%nat ->
  JSON_parse (trim bytes) = None \/ JSON_parse (trim bytes) = Some JNull ->
  promise (request (pre ++ (t, Data bytes) :: post)) = Pending.
Proof.
  intros Hpre Ht Hbad.
  destruct (run_decided JSON_parse socketPath requestType expectedResponseType
              timeoutMs pre post t (Data bytes) Hpre Ht) as (c0 & Hw & Hp & _).
  { intros c1 (Hr & _). cbn [Cli.deliver]. unfold on_data. rewrite Hr.
    by destruct Hbad as [-> | ->]. }
  rewrite Hp. destruct Hw as (Hr & _ & Hpend & _).
  cbn [Cli.deliver]. unfold on_data. rewrite Hr.
  by destruct Hbad as [-> | ->].
Qed.

(** What holds of the client at every moment: while the flag is down the
    promise is pending and the socket has not been ended; and the socket is
    ended only under a resolved promise. *)
Definition consistent (c : Client) : Prop :=
  (resolved c = false -> promise c = Pending /\ ended c = false)
  /\ (ended c = true -> exists v, promise c = Resolved v).

Lemma start_consistent : consistent (start socketPath timeoutMs).
Proof. split; [done | discriminate]. Qed.

Lemma on_timeout_consistent (c : Client) : consistent c -> consistent (on_timeout c).
Proof.
  destruct c as [r tm p cs wr en]. unfold consistent, on_timeout. cbn.
  intros [Hdown Hend]. destruct r; cbn; [by split |].
  destruct (Hdown eq_refl) as [-> ->]. by split.
Qed.

Lemma tick_consistent (now : nat) (c : Client) : consistent c -> consistent (tick now c).
Proof.
  intros Hc. unfold tick. destruct (timer c); [| done].
  destruct (_ <=? _)%nat; [by apply on_timeout_consistent | done].
Qed.

Lemma deliver_consistent (e : SocketEvent) (c : Client) :
  consistent c -> consistent (deliver e c).
Proof.
  destruct c as [r tm p cs wr en]. unfold consistent.
  intros [Hdown Hend]. cbn in Hdown, Hend.
  destruct e as [|bytes| |err|err]; cbn [Cli.deliver].
  - by split.
  - unfold on_data. cbn [resolved]. destruct r; [by split |].
    destruct (Hdown eq_refl) as [-> ->].
    destruct (JSON_parse (trim bytes)) as [response|]; [| by split].
    destruct response; try (by split);
      (destruct (type_matches expectedResponseType _); cbn;
       (split; [discriminate | intros _; by eexists])).
  - unfold on_close. cbn [resolved]. destruct r; [by split |].
    destruct (Hdown eq_refl) as [-> ->]. by split.
  - unfold on_error. cbn [resolved]. destruct r; [by split |].
    destruct (Hdown eq_refl) as [-> ->]. by split.
  - by split.
Qed.

Lemma run_consistent (evs : list (nat * SocketEvent)) (c : Client) :
  consistent c -> consistent (run evs c).
Proof.
  revert c. induction evs as [|[t e] evs IH]; intros c Hc.
  - cbn [Cli.run]. destruct (timer c); [by apply tick_consistent | done].
  - cbn [Cli.run]. by apply IH, deliver_consistent, tick_consistent.
Qed.

(** X11. Whatever the socket does, the client ends the socket only after
    a reply that resolved the call: when the call is rejected (by the timer
    or by an error of the connection) the socket is never ended by the
    client. *)
Theorem socket_ended_only_after_reply (evs : list (nat * SocketEvent)) :
  let c := request evs in
  (ended c = true -> exists v, promise c = Resolved v)
  /\ (forall err, promise c = Rejected err -> ended c = false).
Proof.
  intros c.
  destruct (run_consistent evs _ start_consistent) as [_ Hend].
  fold (request evs) in Hend. fold c in Hend.
  split; [exact Hend |]. intros err Hrej.
  destruct (ended c) eqn:He; [| done].
  destruct (Hend eq_refl) as [v Hv]. congruence.
Qed.

(** The line the [open] handler writes. *)
Definition request_line : string :=
  "{" +:+ dq +:+ "type" +:+ dq +:+ ":" +:+ Json.quote requestType +:+ "}" +:+ lf.

Definition opens (evs : list (nat * SocketEvent)) : nat :=
  length (List.filter (fun te => match te.2 with Open => true | _ => false end) evs).

Lemma tick_written (now : nat) (c : Client) : written (tick now c) = written c.
Proof.
  unfold tick, on_timeout. destruct (timer c); [| done].
  destruct (_ <=? _)%nat; [| done]. cbn. by destruct (resolved c).
Qed.

Lemma deliver_written (e : SocketEvent) (c : Client) :
  written (deliver e c) =
    written c ++ match e with Open => [request_line] | _ => [] end.
Proof.
  destruct e as [|bytes| |err|err]; cbn [Cli.deliver].
  - unfold on_open, request_line. cbn. by rewrite !app_assoc_s.
  - unfold on_data. rewrite app_nil_r. destruct (resolved c); [done |].
    destruct (JSON_parse (trim bytes)) as [response|]; [| done].
    destruct response; try done; by destruct (type_matches _ _).
  - unfold on_close. rewrite app_nil_r. by destruct (resolved c).
  - unfold on_error. rewrite app_nil_r. by destruct (resolved c).
  - by rewrite app_nil_r.
Qed.

Lemma run_written (evs : list (nat * SocketEvent)) (c : Client) :
  written (run evs c) = written c ++ repeat request_line (opens evs).
Proof.
  revert c. induction evs as [|[t e] evs IH]; intros c.
  - cbn [Cli.run]. unfold opens. cbn. rewrite app_nil_r.
    destruct (timer c); [apply tick_written | done].
  - cbn [Cli.run]. rewrite IH, deliver_written, tick_written, <- app_assoc.
    f_equal. unfold opens. cbn [List.filter snd].
    by destruct e.
Qed.

(** X12. The client writes one request line for every [open] event and
    nothing else, whatever the socket does: the line is the JSON object with
    the one member [type], the request type quoted as JSON, and a line
    feed. There is no retry and no second message. *)
Theorem request_written_per_open (evs : list (nat * SocketEvent)) :
  written (request evs) = repeat request_line (opens evs).
Proof. unfold sendCanvasRequest. by rewrite run_written. Qed.

End Request.

Lemma unparsable_reply_hangs_witness :
  promise (sendCanvasRequest sample_parse sample_socket "getSelection" "selection"
             None ([(1%nat, Open)] ++ (12%nat, Data "{oops") :: [(13%nat, Close)]))
  = Pending.
Proof.
  apply unparsable_reply_hangs.
  - repeat constructor.
  - vm_compute. lia.
  - left. reflexivity.
Defined.

End CliMore.

(** ** Quoting a command for a script *)

(** Whether a text has a double quote that no backslash stands before;
    [escaped] tells whether the character before was a backslash. *)
Fixpoint bare_quote_from (escaped : bool) (s : string) : bool :=
  match s with
  | EmptyString => false
  | String c r =>
      (Ascii.eqb c (ascii_of_nat 34) && negb escaped)
      || bare_quote_from (Ascii.eqb c (ascii_of_nat 92)) r
  end.

Definition bare_quote (s : string) : bool := bare_quote_from false s.

Lemma escaped_quote_cons (x : string) :
  (backslash +:+ dq) +:+ x = String (ascii_of_nat 92) (String (ascii_of_nat 34) x).
Proof. reflexivity. Qed.

Lemma bare_quote_escape (command : string) (escaped : bool) :
  bare_quote_from escaped (escape_dq command) = false.
Proof.
  revert escaped. induction command as [|c r IH]; intros escaped; [done |].
  unfold escape_dq in *. cbn [replace_all_char].
  destruct (Ascii.eqb_spec c (ascii_of_nat 34)) as [-> | Hc].
  - rewrite escaped_quote_cons.
    cbn [bare_quote_from]. rewrite IH.
    change (Ascii.eqb (ascii_of_nat 92) (ascii_of_nat 34)) with false.
    change (Ascii.eqb (ascii_of_nat 92) (ascii_of_nat 92)) with true.
    change (Ascii.eqb (ascii_of_nat 34) (ascii_of_nat 34)) with true.
    reflexivity.
  - rewrite append_cons, append_nil_l. cbn [bare_quote_from]. rewrite IH.
    apply Ascii.eqb_neq in Hc. by rewrite Hc.
Qed.

Lemma escape_dq_plain (command : string) :
  includes dq command = false -> escape_dq command = command.
Proof.
  unfold escape_dq. induction command as [|c r IH]; [done |].
  cbn [includes startsWith dq]. intros Hn.
  apply orb_false_iff in Hn as [Hc Hr].
  cbn [replace_all_char]. rewrite Ascii.eqb_sym in Hc.
  destruct (Ascii.eqb c (ascii_of_nat 34)); [discriminate Hc |].
  rewrite append_cons, append_nil_l. f_equal. apply IH. exact Hr.
Qed.

(** X13. In the text [command.replace(/"/g, '\\"')] every double quote
    has a backslash before it, so the quote that closes the text in a script
    is the first one without; and a command without double quotes is left as
    it is, backslashes included. *)
Theorem escape_dq_no_bare_quote (command : string) :
  bare_quote (escape_dq command) = false
  /\ (includes dq command = false -> escape_dq command = command).
Proof.
  split; [apply bare_quote_escape | apply escape_dq_plain].
Qed.

(** ** Looking for a handle in a listing *)

(** A pane of the listing of WezTerm with the number [i] (as printed). *)
Definition pane_is (i : string) (p : json) : Prop :=
  Json.prop p "pane_id" = Some (JNum i).

(** A window, a tab and an OS window of the tree Kitty lists. *)
Definition window_is (i : string) (win : json) : Prop :=
  Json.prop win "id" = Some (JNum i).

Definition tab_is (ids : list string) (tab : json) : Prop :=
  exists wins, Json.prop tab "windows" = Some (JArr wins) /\ Forall2 window_is ids wins.

Definition osWindow_is (tabs_ids : list (list string)) (osWindow : json) : Prop :=
  exists tabs, Json.prop osWindow "tabs" = Some (JArr tabs) /\ Forall2 tab_is tabs_ids tabs.

Definition has (id : string) (ids : list string) : bool :=
  existsb (fun i => String.eqb i id) ids.

Lemma prop_get (v : json) (k : string) (x : json) :
  Json.prop v k = Some x -> Json.get v k = Some (Some x).
Proof. intros Hp. destruct v; try discriminate Hp. cbn. by rewrite <- Hp. Qed.

Lemma panes_some_has (id : string) (ids : list string) (panes : list json) :
  Forall2 pane_is ids panes -> panes_some id panes = Some (has id ids).
Proof.
  induction 1 as [|i p ids panes Hp _ IH]; [done |].
  cbn [panes_some has existsb]. rewrite (prop_get _ _ _ Hp). cbn [Json.String_of Json.to_String].
  destruct (String.eqb i id); [done | exact IH].
Qed.

Lemma kitty_wins_has (id : string) (ids : list string) (wins : list json) :
  Forall2 window_is ids wins -> kitty_wins id wins = Some (has id ids).
Proof.
  induction 1 as [|i p ids wins Hp _ IH]; [done |].
  cbn [kitty_wins has existsb]. rewrite (prop_get _ _ _ Hp). cbn [Json.String_of Json.to_String].
  destruct (String.eqb i id); [done | exact IH].
Qed.

Lemma has_app (id : string) (a b : list string) : has id (a ++ b) = has id a || has id b.
Proof. apply existsb_app. Qed.

Lemma kitty_tabs_has (id : string) (tabs_ids : list (list string)) (tabs : list json) :
  Forall2 tab_is tabs_ids tabs -> kitty_tabs id tabs = Some (has id (concat tabs_ids)).
Proof.
  induction 1 as [|ids tab tabs_ids tabs (wins & Hp & Hw) _ IH]; [done |].
  cbn [kitty_tabs concat]. rewrite (prop_get _ _ _ Hp).
  cbn [Json.iterate_or_empty Json.truthy_json Json.iterate].
  rewrite (kitty_wins_has id ids wins Hw), has_app, IH.
  by destruct (has id ids).
Qed.

(** X14. In a listing of the shape the products print, the search of the
    probe finds a handle exactly when the listing has it: WezTerm's search
    over the panes, and Kitty's three nested loops over OS windows, tabs and
    windows. The numbers of the listing are compared as texts with the
    content of the registry. An item that is [null] before the match ends
    the search of WezTerm without a result. *)
Theorem listing_search (id : string) :
  (forall ids panes,
      Forall2 pane_is ids panes -> panes_some id panes = Some (has id ids))
  /\ (forall tree osWindows,
        Forall2 osWindow_is tree osWindows ->
        kitty_osWindows id osWindows = Some (has id (concat (concat tree))))
  /\ (forall rest, panes_some id (JNull :: rest) = None).
Proof.
  split; [intros ids panes; apply panes_some_has |]. split; [| done].
  intros tree osWindows.
  induction 1 as [|tabs_ids o tree osWindows (tabs & Hp & Ht) _ IH]; [done |].
  cbn [kitty_osWindows concat]. rewrite (prop_get _ _ _ Hp).
  cbn [Json.iterate_or_empty Json.truthy_json Json.iterate].
  rewrite (kitty_tabs_has id tabs_ids tabs Ht), concat_app, has_app, IH.
  by destruct (has id (concat tabs_ids)).
Qed.

(** ** Classification by the name of the program *)

(** The variables a product leaves in the environment, other than
    [TERM_PROGRAM]. *)
Definition marker_variables : list string :=
  ["TMUX"; "ITERM_SESSION_ID"; "KITTY_PID"; "ALACRITTY_SOCKET";
   "VSCODE_INJECTION"; "GHOSTTY_RESOURCES_DIR"].

(** The values of [TERM_PROGRAM] the source compares with. *)
Definition program_names : list (string * TerminalType) :=
  [("iTerm.app", iterm2); ("Apple_Terminal", apple_terminal); ("kitty", kitty);
   ("WezTerm", wezterm); ("Alacritty", alacritty); ("vscode", vscode);
   ("ghostty", ghostty)].

Fixpoint named (table : list (string * TerminalType)) (program : string) : TerminalType :=
  match table with
  | (name, t) :: rest => if String.eqb program name then t else named rest program
  | [] => none
  end.

(** The presence flags, each with the product it stands for. *)
Definition flags (e : TerminalEnvironment) : list (TerminalType * bool) :=
  [(tmux, inTmux e); (iterm2, inITerm2 e); (apple_terminal, inAppleTerminal e);
   (kitty, inKitty e); (wezterm, inWezTerm e); (alacritty, inAlacritty e);
   (vscode, inVSCode e); (ghostty, inGhostty e)].

(** X15. When none of the six marker variables is set to a text that is not
    empty, [TERM_PROGRAM] alone decides: the classification is the product
    whose name [TERM_PROGRAM] is, letter for letter, and [none] for every
    other value or when it is unset; and the one flag that is raised is the
    flag of the classification. *)
Theorem detectTerminal_by_program (env : process_env) :
  Forall (fun v => truthy (env !! v) = false) marker_variables ->
  let e := detectTerminal env in
  terminalType e = from_option (named program_names) none (env !! "TERM_PROGRAM")
  /\ Forall (fun f => f.2 = bool_decide (terminalType e = f.1)) (flags e).
Proof.
  intros Hall e. subst e. unfold marker_variables in Hall.
  repeat (apply Forall_cons in Hall as [? Hall]).
  clear Hall. unfold detectTerminal, flags. cbv zeta.
  repeat match goal with Hv : truthy _ = false |- _ => rewrite Hv; clear Hv end.
  destruct (env !! "TERM_PROGRAM") as [p|]; cbn [str_is from_option];
    [| split; [reflexivity | by repeat constructor]].
  unfold program_names; cbn [named].
  repeat match goal with
         | |- context [String.eqb p ?s] =>
             destruct (String.eqb_spec p s) as [-> | ?];
             [vm_compute; split; [reflexivity | by repeat constructor] |]
         end.
  split; [reflexivity | by repeat constructor].
Qed.

Lemma detectTerminal_by_program_witness :
  let env : process_env := {[ "TERM_PROGRAM" := "WezTerm"; "TMUX" := EmptyString ]} in
  terminalType (detectTerminal env) = wezterm
  /\ Forall (fun f => f.2 = bool_decide (wezterm = f.1)) (flags (detectTerminal env)).
Proof.
  intros env.
  assert (Hall : Forall (fun v => truthy (env !! v) = false) marker_variables)
    by (repeat constructor).
  exact (detectTerminal_by_program env Hall).
Defined.

(** ** The path of the starting script *)

Lemma substring_all (s : string) : String.substring 0 (String.length s) s = s.
Proof. induction s as [|c s IH]; [done |]. cbn [String.length String.substring]. by rewrite IH. Qed.

Lemma startsWith_src_early (c : ascii) (a b : string) :
  startsWith "/src" (String c a +:+ "/src" +:+ b) = true ->
  startsWith "/src" (String c a +:+ "/sr") = true.
Proof.
  destruct a as [|c1 [|c2 [|c3 a]]];
    rewrite ?append_cons, ?append_nil_l; cbn [startsWith];
    rewrite ?append_cons, ?append_nil_l; cbn [startsWith]; done.
Qed.

Lemma replace_first_src (a b : string) :
  includes "/src" (a +:+ "/sr") = false ->
  replace_first "/src" EmptyString (a +:+ "/src" +:+ b) = a +:+ b.
Proof.
  induction a as [|c a IH]; intros Hn.
  - rewrite !append_nil_l.
    change ("/src" +:+ b) with (String "/" (String "s" (String "r" (String "c" b)))).
    cbn [replace_first startsWith].
    change (Ascii.eqb "/" "/") with true. change (Ascii.eqb "s" "s") with true.
    change (Ascii.eqb "r" "r") with true. change (Ascii.eqb "c" "c") with true.
    cbn [andb String.length Nat.sub String.substring].
    by rewrite append_nil_l, Nat.sub_0_r, substring_all.
  - cbn [includes] in Hn. rewrite append_cons in Hn.
    apply orb_false_iff in Hn as [Hs Hr]. rewrite <- append_cons in Hs.
    assert (Hf : startsWith "/src" (String c a +:+ "/src" +:+ b) = false).
    { destruct (startsWith "/src" (String c a +:+ "/src" +:+ b)) eqn:E; [| done].
      apply startsWith_src_early in E. congruence. }
    rewrite !append_cons in *. cbn [replace_first]. rewrite Hf.
    f_equal. by apply IH.
Qed.

(** X16. The path of the starting script is the directory of the module with
    its first [/src] taken out, wherever that stands, and [/run-canvas.sh]
    added: for a directory [a/src b] in which no [/src] begins before the end
    of [a], the script is [a b/run-canvas.sh]. A later [/src] stays, and
    [/src] is taken out also where a longer name begins with it. *)
Theorem runScript_first_src (H : Host) (a b : string) :
  import_meta_dir H = a +:+ "/src" +:+ b ->
  includes "/src" (a +:+ "/sr") = false ->
  runScript H = a +:+ b +:+ "/run-canvas.sh".
Proof.
  intros Hdir Hn. unfold runScript. rewrite Hdir, (replace_first_src a b Hn).
  apply app_assoc_s.
Qed.

(** A module kept under [/opt/srcs/canvas/src]. *)
Definition srcs_host : Host := {|
  process_environment := ∅;
  import_meta_dir := "/opt/srcs/canvas/src";
  process_platform := "linux";
  JSON_parse := fun _ => None;
  spawnSync_answer := fun _ _ _ _ => Samples.no_answer;
  spawn_answer := fun _ _ _ => LaunchError;
  pid_answer := fun _ _ _ => None;
  kill_answer := fun _ _ _ => false;
|}.

Lemma runScript_first_src_witness :
  runScript srcs_host = "/opts/canvas/src/run-canvas.sh".
Proof.
  exact (runScript_first_src srcs_host "/opt" "s/canvas/src" eq_refl eq_refl).
Defined.

(** ** Instances *)

Lemma unreadable_entry_not_probed_witness :
  let w := init {[ ALACRITTY_PID_FILE := "abc" ]} in
  (probe Samples.alacritty_live Alacritty w).1 = None
  /\ files (probe Samples.alacritty_live Alacritty w).2 = files w
  /\ log (probe Samples.alacritty_live Alacritty w).2 = log w.
Proof.
  intros w.
  exact (unreadable_entry_not_probed Samples.alacritty_live Alacritty w eq_refl).
Defined.

Lemma readable_entry_probed_witness :
  let w := init {[ CANVAS_PANE_FILE := "%3" +:+ lf ]} in
  (probe Samples.tmux_pane_live Tmux w).1 = Some "%3".
Proof.
  intros w.
  exact (readable_entry_probed Samples.tmux_pane_live Tmux w ("%3" +:+ lf) "%3"
           eq_refl eq_refl eq_refl).
Defined.

Lemma reuse_keeps_files_witness :
  let w := init {[ CANVAS_PANE_FILE := "%3" +:+ lf ]} in
  (adapter Samples.tmux_pane_live Tmux "run" w).1 = true
  /\ files (adapter Samples.tmux_pane_live Tmux "run" w).2 = files w.
Proof.
  intros w.
  exact (reuse_keeps_files Samples.tmux_pane_live Tmux "run" w
           (probe Samples.tmux_pane_live Tmux w).2 "%3" eq_refl eq_refl eq_refl).
Defined.

(** The registry of Alacritty holds the number 0, and the signal 0 to the
    process 0 is answered: the number comes out of the probe and, being
    falsy, is not terminated. *)
Lemma falsy_handle_skipped_witness :
  let w := init {[ ALACRITTY_PID_FILE := "0" ]} in
  adapter Samples.alacritty_live Alacritty "run" w
  = create Samples.alacritty_live Alacritty "run"
      (probe Samples.alacritty_live Alacritty w).2.
Proof.
  intros w.
  exact (falsy_handle_skipped Samples.alacritty_live Alacritty "run" w
           (probe Samples.alacritty_live Alacritty w).2 0 eq_refl eq_refl).
Defined.

Lemma kitty_without_remote_control_witness :
  let ask := EvSpawnSync "kitty" ["@"; "ls"] (Some 2000%nat) Samples.no_answer in
  spawnKitty Samples.bare "run" (init ∅)
  = (true,
     {| files := ∅;
        log := [EvSpawnDetached "kitty" ["--title=Canvas"; "bash"; "-c"; "run"] None;
                ask; ask] |}).
Proof.
  intros ask.
  exact (kitty_without_remote_control Samples.bare "run" (init ∅) eq_refl eq_refl).
Defined.

(** Ghostty on macOS: the process that opens the application gets the
    number 77, and the newest process named ghostty has the number 4321. *)
Definition ghostty_mac : Host := {|
  process_environment := {[ "TERM_PROGRAM" := "ghostty" ]};
  import_meta_dir := "/opt/canvas/src";
  process_platform := "darwin";
  JSON_parse := fun _ => None;
  spawnSync_answer := fun _ cmd _ _ =>
    if String.eqb cmd "pgrep" then {| status := Some 0; stdout := Some ("4321" +:+ lf) |}
    else Samples.no_answer;
  spawn_answer := fun _ _ _ => LaunchError;
  pid_answer := fun _ _ _ => Some 77;
  kill_answer := fun _ _ _ => false;
|}.

Lemma ghostty_identity_deferred_witness :
  files (createGhosttyWindow ghostty_mac "run" (init ∅)).2 = ∅
  /\ files (run_deferred ghostty_mac GhosttyFollowUp (init ∅)).2
     = {[ GHOSTTY_PID_FILE := "4321" ]}.
Proof.
  destruct (ghostty_identity_deferred ghostty_mac "run" (init ∅) eq_refl)
    as [[Hfiles _] Hlater].
  split; [exact Hfiles | exact Hlater].
Defined.
